(** * watchify/hls: the RTMP ingest handler and its ffmpeg pipe

    A shallow embedding of [src/hls/main.go]: the [Handler] struct and its
    callbacks [OnPublish], [OnSetDataFrame], [OnAudio], [OnVideo] and
    [OnClose], run in a small state monad over the handler and the
    operating-system resources it touches (directories, processes, pipes,
    the log).  The third-party packages the handler calls (go-flv, os/exec,
    path/filepath) are modelled by their documented behaviour; every outcome
    that depends on the machine is read from an oracle. *)

From Stdlib Require Import ZArith Ascii String.
From stdpp Require Import base option list strings gmap.

Local Open Scope string_scope.

(** ** path/filepath (Unix) *)

Module Filepath.

Definition Separator : ascii := "/"%char.

Definition IsPathSeparator (c : ascii) : bool := Ascii.eqb c Separator.

(** The elements of a path: the substrings between separators, empty
    ones included. *)
Fixpoint elements_from (cur p : string) : list string :=
  match p with
  | EmptyString => [cur]
  | String c rest =>
      if IsPathSeparator c then cur :: elements_from "" rest
      else elements_from (cur ++ String c "") rest
  end.

Definition elements (p : string) : list string := elements_from "" p.

Definition rooted (p : string) : bool :=
  match p with
  | String c _ => IsPathSeparator c
  | EmptyString => false
  end.

(** One turn of the loop of [Clean].  [out] is the output buffer, held as
    the list of elements written so far, last one first.  An empty element
    and [.] are skipped; [..] removes the last element when there is one to
    backtrack over, is dropped at the root of a rooted path and is kept
    otherwise; any other element is appended. *)
Definition clean_step (is_rooted : bool) (out : list string) (e : string)
  : list string :=
  if String.eqb e "" then out
  else if String.eqb e "." then out
  else if String.eqb e ".." then
    match out with
    | top :: below =>
        if String.eqb top ".." then e :: out else below
    | [] => if is_rooted then [] else [e]
    end
  else e :: out.

Definition join_sep (l : list string) : string :=
  String.concat (String Separator "") l.

(** [filepath.Clean]: the shortest path name equivalent to [path] by
    purely lexical processing. *)
Definition Clean (path : string) : string :=
  if String.eqb path "" then "."
  else
    let out := fold_left (clean_step (rooted path)) (elements path) [] in
    let body := join_sep (rev out) in
    if rooted path then String Separator body
    else if String.eqb body "" then "." else body.

(** [filepath.Join]: the elements from the first non-empty one on are
    joined with the separator and the result is cleaned. *)
Fixpoint Join (elem : list string) : string :=
  match elem with
  | [] => ""
  | e :: rest =>
      if String.eqb e "" then Join rest else Clean (join_sep elem)
  end.

(** [p] lies inside the directory [root]: it is [root] or a path below
    it.  Both are cleaned relative paths. *)
Definition within (root p : string) : bool :=
  String.eqb p root || String.prefix (root ++ String Separator "") p.

End Filepath.

(** ** Errors, readers and the FLV tag types *)

(** Go's [error] values as this program builds them: [errors.New] and
    [errors.Wrap] of github.com/pkg/errors.  A nil error is [None]. *)
Inductive error : Type :=
  | errors_New (msg : string)
  | errors_Wrap (cause : error) (msg : string).

(** An [io.Reader]: the bytes it yields, and the error (if any) that ends
    the stream in place of [io.EOF]. *)
Record Reader : Type := mkReader {
  rd_bytes : list Init.Byte.byte;
  rd_fault : option error
}.

Definition bytes_NewReader (b : list Init.Byte.byte) : Reader :=
  {| rd_bytes := b; rd_fault := None |}.

(** [io.Copy(buf, r)] into a new [bytes.Buffer]: the buffer's content, or
    the reader's error. *)
Definition io_Copy (r : Reader) : error + list Init.Byte.byte :=
  match rd_fault r with
  | Some e => inl e
  | None => inr (rd_bytes r)
  end.

(** The decoders of go-flv's [tag] package, which the handler calls but
    does not define: the decoded header types and the three decode
    functions.  The audio and video decoders return the header together
    with the reader left for the body ([AudioData.Data], [VideoData.Data]). *)
Record FlvCodec : Type := {
  ScriptData : Type;
  AudioHeader : Type;
  VideoHeader : Type;
  DecodeScriptData : Reader -> error + ScriptData;
  DecodeAudioData : Reader -> error + (AudioHeader * Reader);
  DecodeVideoData : Reader -> error + (VideoHeader * Reader)
}.

Inductive TagType : Type := TagTypeAudio | TagTypeVideo | TagTypeScriptData.

Abbreviation PipeId := nat.
Abbreviation Pid := nat.

(** [exec.Cmd], as far as the handler uses it.  [Process] is set by a
    successful [Start]. *)
Inductive Stream : Type := os_Stdout | os_Stderr.

Record Cmd : Type := mkCmd {
  Path : string;
  Args : list string;
  Stdout : option Stream;
  Stderr : option Stream;
  Process : option Pid
}.

Definition exec_Command (name : string) (args : list string) : Cmd :=
  {| Path := name; Args := name :: args; Stdout := None; Stderr := None;
     Process := None |}.

Definition set_Stdout (c : Cmd) (s : Stream) : Cmd :=
  {| Path := Path c; Args := Args c; Stdout := Some s; Stderr := Stderr c;
     Process := Process c |}.

Definition set_Stderr (c : Cmd) (s : Stream) : Cmd :=
  {| Path := Path c; Args := Args c; Stdout := Stdout c; Stderr := Some s;
     Process := Process c |}.

Definition set_Process (c : Cmd) (p : Pid) : Cmd :=
  {| Path := Path c; Args := Args c; Stdout := Stdout c; Stderr := Stderr c;
     Process := Some p |}.

(** [flv.Encoder]: the writer it is bound to. *)
Record Encoder : Type := mkEncoder { enc_w : PipeId }.

Definition FlagsAudio : Z := 4.
Definition FlagsVideo : Z := 1.

(** The handler of one connection. *)
Record Handler : Type := mkHandler {
  ffmpegCmd : option Cmd;
  ffmpegIn : option PipeId;
  flvEnc : option Encoder
}.

(** [&Handler{}] *)
Definition new_Handler : Handler :=
  {| ffmpegCmd := None; ffmpegIn := None; flvEnc := None |}.

Record NetStreamPublish : Type := mkPublish {
  PublishingName : string;
  PublishingType : string
}.

(** ** Callbacks as state transformers that may panic *)

(** A callback returns, or panics; either way it leaves a state. *)
Inductive Result (S A : Type) : Type :=
  | Returned (a : A) (s : S)
  | Panicked (msg : string) (s : S).
Arguments Returned {S A} a s.
Arguments Panicked {S A} msg s.

Definition M (S A : Type) : Type := S -> Result S A.

Definition ret {S A} (a : A) : M S A := fun s => Returned a s.

Definition bind {S A B} (m : M S A) (k : A -> M S B) : M S B :=
  fun s =>
    match m s with
    | Returned a s' => k a s'
    | Panicked msg s' => Panicked msg s'
    end.

Definition panic {S A} (msg : string) : M S A := fun s => Panicked msg s.

Definition final_state {S A} (r : Result S A) : S :=
  match r with
  | Returned _ s => s
  | Panicked _ s => s
  end.

Definition returned {S A} (r : Result S A) : option A :=
  match r with
  | Returned a _ => Some a
  | Panicked _ _ => None
  end.

Definition panicked {S A} (r : Result S A) : bool :=
  match r with
  | Returned _ _ => false
  | Panicked _ _ => true
  end.

Notation "x <- m ;; k" := (bind m (fun x => k))
  (at level 90, m at next level, right associativity).
Notation "m ;;; k" := (bind m (fun _ => k))
  (at level 90, right associativity).

Section Hls.

Context (flvtag : FlvCodec).

Inductive TagData : Type :=
  | DataScript (s : ScriptData flvtag)
  | DataAudio (hd : AudioHeader flvtag) (body : list Init.Byte.byte)
  | DataVideo (hd : VideoHeader flvtag) (body : list Init.Byte.byte).

Record FlvTag : Type := mkFlvTag {
  tag_TagType : TagType;
  tag_Timestamp : Z;
  tag_Data : TagData
}.

(** What travels through the pipe: the FLV header written by
    [flv.NewEncoder], then one chunk per encoded tag. *)
Inductive Chunk : Type :=
  | ChunkHeader (flags : Z)
  | ChunkTag (t : FlvTag).

(** ** The machine *)

Record Pipe : Type := mkPipe {
  pipe_closes : nat;          (* calls of Close on the write end *)
  pipe_writes : nat;          (* chunks handed to Write, refused ones included *)
  pipe_data : list Chunk      (* what was delivered, oldest first *)
}.

Record Proc : Type := mkProc {
  proc_cmd : Cmd;
  proc_kills : nat            (* calls of Process.Kill *)
}.

Inductive LogArg : Type :=
  | ArgError (e : error)
  | ArgPublish (cmd : NetStreamPublish).

Record LogEntry : Type := mkLog {
  log_format : string;
  log_args : list LogArg
}.

Record World : Type := mkWorld {
  dirs : list (string * Z);   (* the MkdirAll calls that succeeded: path, mode *)
  procs : list Proc;          (* started processes, by pid *)
  pipes : list Pipe;          (* pipes, by id *)
  logs : list LogEntry        (* oldest first *)
}.

Definition empty_World : World :=
  {| dirs := []; procs := []; pipes := []; logs := [] |}.

(** The outcomes the handler cannot decide: whether the directory can be
    made, the pipe obtained, the binary started, whether a write on an open
    pipe goes through, and what [Close] and [Kill] return.  Each may depend
    on everything that happened before. *)
Record OS : Type := {
  MkdirAll_result : World -> string -> Z -> option error;
  StdinPipe_result : World -> Cmd -> option error;
  Start_result : World -> Cmd -> option error;
  Write_result : World -> PipeId -> Chunk -> option error;
  Close_result : World -> PipeId -> option error;
  Kill_result : World -> Pid -> option error
}.

Context (os : OS).

(** The state a callback runs in: the handler it was invoked on and the
    machine. *)
Record State : Type := mkState {
  handler : Handler;
  world : World
}.

Definition get_handler : M State Handler := fun s => Returned (handler s) s.

Definition get_world : M State World := fun s => Returned (world s) s.

Definition put_handler (h : Handler) : M State unit :=
  fun s => Returned tt {| handler := h; world := world s |}.

Definition put_world (w : World) : M State unit :=
  fun s => Returned tt {| handler := handler s; world := w |}.

Definition set_dirs (w : World) (d : list (string * Z)) : World :=
  {| dirs := d; procs := procs w; pipes := pipes w; logs := logs w |}.

Definition set_procs (w : World) (p : list Proc) : World :=
  {| dirs := dirs w; procs := p; pipes := pipes w; logs := logs w |}.

Definition set_pipes (w : World) (p : list Pipe) : World :=
  {| dirs := dirs w; procs := procs w; pipes := p; logs := logs w |}.

Definition set_logs (w : World) (l : list LogEntry) : World :=
  {| dirs := dirs w; procs := procs w; pipes := pipes w; logs := l |}.

(** *** The log *)

Definition log_Printf (format : string) (args : list LogArg) : M State unit :=
  w <- get_world ;;
  put_world (set_logs w (logs w ++ [mkLog format args])).

Definition log_Println (msg : string) : M State unit := log_Printf msg [].

(** *** os and os/exec *)

(** [os.MkdirAll(path, perm)].  What is recorded is the call, when it
    succeeds: [dirs] is the list of calls that returned nil, not the list
    of directories of the file system.  The directories themselves (the
    missing parents a successful call makes on its way, what a failed call
    has made before it failed, a directory that was there already) are not
    modelled. *)
Definition os_MkdirAll (path : string) (perm : Z) : M State (option error) :=
  w <- get_world ;;
  match MkdirAll_result os w path perm with
  | Some e => ret (Some e)
  | None => put_world (set_dirs w (dirs w ++ [(path, perm)])) ;;; ret None
  end.

(** [cmd.StdinPipe()]: a new pipe, named by its index. *)
Definition Cmd_StdinPipe (c : Cmd) : M State (error + PipeId) :=
  w <- get_world ;;
  match StdinPipe_result os w c with
  | Some e => ret (inl e)
  | None =>
      put_world (set_pipes w (pipes w ++ [mkPipe 0 0 []])) ;;;
      ret (inr (length (pipes w)))
  end.

Definition close_pipe (p : Pipe) : Pipe :=
  {| pipe_closes := S (pipe_closes p); pipe_writes := pipe_writes p;
     pipe_data := pipe_data p |}.

Definition kill_proc (p : Proc) : Proc :=
  {| proc_cmd := proc_cmd p; proc_kills := S (proc_kills p) |}.

Definition ErrClosed : error := errors_New "file already closed".
Definition ErrInvalid : error := errors_New "invalid argument".

(** [Close] on the write end of a pipe.  The call is counted; what it
    returns is the machine's. *)
Definition WriteCloser_Close (p : PipeId) : M State (option error) :=
  w <- get_world ;;
  match pipes w !! p with
  | None => ret (Some ErrInvalid)
  | Some pp =>
      put_world (set_pipes w (alter close_pipe p (pipes w))) ;;;
      ret (Close_result os w p)
  end.

(** [cmd.Start()], for a command whose stdin is the pipe [stdin] obtained
    from [StdinPipe].  On success the process is running and [Process] is
    set; on failure os/exec closes the pipe it had handed out. *)
Definition Cmd_Start (c : Cmd) (stdin : PipeId) : M State (error + Cmd) :=
  w <- get_world ;;
  match Start_result os w c with
  | Some e =>
      put_world (set_pipes w (alter close_pipe stdin (pipes w))) ;;;
      ret (inl e)
  | None =>
      let c' := set_Process c (length (procs w)) in
      put_world (set_procs w (procs w ++ [mkProc c' 0])) ;;;
      ret (inr c')
  end.

(** [Process.Kill()]: the signal is sent and the call is counted; what it
    returns is the machine's. *)
Definition Process_Kill (pid : Pid) : M State (option error) :=
  w <- get_world ;;
  match procs w !! pid with
  | None => ret (Some ErrInvalid)
  | Some pr =>
      put_world (set_procs w (alter kill_proc pid (procs w))) ;;;
      ret (Kill_result os w pid)
  end.

Definition write_pipe (ok : bool) (c : Chunk) (p : Pipe) : Pipe :=
  {| pipe_closes := pipe_closes p; pipe_writes := S (pipe_writes p);
     pipe_data := if ok then pipe_data p ++ [c] else pipe_data p |}.

(** [Write] on the write end of a pipe: refused once the pipe is closed,
    otherwise as the machine decides. *)
Definition Pipe_Write (p : PipeId) (c : Chunk) : M State (option error) :=
  w <- get_world ;;
  match pipes w !! p with
  | None => ret (Some ErrInvalid)
  | Some pp =>
      let err :=
        if Nat.eqb (pipe_closes pp) 0 then Write_result os w p c
        else Some ErrClosed in
      put_world (set_pipes w (alter (write_pipe (bool_decide (err = None)) c) p (pipes w))) ;;;
      ret err
  end.

(** *** go-flv *)

(** [flv.NewEncoder(w, flags)] writes the FLV header and returns an
    encoder bound to [w]. *)
Definition flv_NewEncoder (w : PipeId) (flags : Z) : M State (error + Encoder) :=
  err <- Pipe_Write w (ChunkHeader flags) ;;
  match err with
  | Some e => ret (inl e)
  | None => ret (inr (mkEncoder w))
  end.

(** [enc.Encode(tag)] writes the tag to the encoder's writer.  On a nil
    encoder the field access panics. *)
Definition Encoder_Encode (enc : option Encoder) (t : FlvTag) : M State (option error) :=
  match enc with
  | None => panic "invalid memory address or nil pointer dereference"
  | Some e => Pipe_Write (enc_w e) (ChunkTag t)
  end.

(** ** The handler's callbacks *)

Definition set_ffmpegCmd (h : Handler) (c : Cmd) : Handler :=
  {| ffmpegCmd := Some c; ffmpegIn := ffmpegIn h; flvEnc := flvEnc h |}.

Definition set_ffmpegIn (h : Handler) (p : PipeId) : Handler :=
  {| ffmpegCmd := ffmpegCmd h; ffmpegIn := Some p; flvEnc := flvEnc h |}.

Definition set_flvEnc (h : Handler) (e : Encoder) : Handler :=
  {| ffmpegCmd := ffmpegCmd h; ffmpegIn := ffmpegIn h; flvEnc := Some e |}.

Definition output_root : string := "public".

Definition ffmpeg_args (m3u8Path : string) : list string :=
  [ "-fflags"; "nobuffer";
    "-flags"; "low_delay";
    "-i"; "pipe:0";
    "-c:v"; "copy";
    "-c:a"; "aac";
    "-f"; "hls";
    "-hls_time"; "2";
    "-hls_list_size"; "5";
    "-hls_flags"; "split_by_time+delete_segments+program_date_time";
    m3u8Path ].

Definition OnPublish (timestamp : Z) (cmd : NetStreamPublish)
  : M State (option error) :=
  log_Printf "OnPublish: %#v" [ArgPublish cmd] ;;;
  if String.eqb (PublishingName cmd) "" then
    ret (Some (errors_New "PublishingName is empty"))
  else
    let outputDir :=
      Filepath.Join [output_root; Filepath.Clean (PublishingName cmd)] in
    err <- os_MkdirAll outputDir 493 ;;
    match err with
    | Some e => ret (Some (errors_Wrap e "Failed to create output dir"))
    | None =>
    let m3u8Path := Filepath.Join [outputDir; "index.m3u8"] in
    let ffmpegCmd0 := exec_Command "ffmpeg" (ffmpeg_args m3u8Path) in
    r <- Cmd_StdinPipe ffmpegCmd0 ;;
    match r with
    | inl e => ret (Some (errors_Wrap e "Failed to get ffmpeg stdin"))
    | inr ffmpegStdin =>
    let ffmpegCmd1 := set_Stderr (set_Stdout ffmpegCmd0 os_Stdout) os_Stderr in
    r <- Cmd_Start ffmpegCmd1 ffmpegStdin ;;
    match r with
    | inl e => ret (Some (errors_Wrap e "Failed to start ffmpeg"))
    | inr ffmpegCmd2 =>
    h <- get_handler ;;
    put_handler (set_ffmpegIn (set_ffmpegCmd h ffmpegCmd2) ffmpegStdin) ;;;
    r <- flv_NewEncoder ffmpegStdin (Z.lor FlagsAudio FlagsVideo) ;;
    match r with
    | inl e =>
        WriteCloser_Close ffmpegStdin ;;;
        match Process ffmpegCmd2 with
        | None => panic "invalid memory address or nil pointer dereference"
        | Some pid => Process_Kill pid
        end ;;;
        ret (Some (errors_Wrap e "Failed to create FLV encoder"))
    | inr enc =>
        h <- get_handler ;;
        put_handler (set_flvEnc h enc) ;;;
        ret None
    end end end end.

Definition OnSetDataFrame (timestamp : Z) (payload : list Init.Byte.byte)
  : M State (option error) :=
  let r := bytes_NewReader payload in
  match DecodeScriptData flvtag r with
  | inl err =>
      log_Printf "Failed to decode script data: %+v" [ArgError err] ;;;
      ret None
  | inr script =>
      h <- get_handler ;;
      err <- Encoder_Encode (flvEnc h)
               {| tag_TagType := TagTypeScriptData;
                  tag_Timestamp := timestamp;
                  tag_Data := DataScript script |} ;;
      match err with
      | Some e => log_Printf "Failed to write script data: %+v" [ArgError e]
      | None => ret tt
      end ;;;
      ret None
  end.

Definition OnAudio (timestamp : Z) (payload : Reader)
  : M State (option error) :=
  match DecodeAudioData flvtag payload with
  | inl err => ret (Some err)
  | inr (audio, data) =>
      match io_Copy data with
      | inl err => ret (Some err)
      | inr buf =>
          h <- get_handler ;;
          err <- Encoder_Encode (flvEnc h)
                   {| tag_TagType := TagTypeAudio;
                      tag_Timestamp := timestamp;
                      tag_Data := DataAudio audio buf |} ;;
          match err with
          | Some e => log_Printf "Failed to write audio: %+v" [ArgError e]
          | None => ret tt
          end ;;;
          ret None
      end
  end.

Definition OnVideo (timestamp : Z) (payload : Reader)
  : M State (option error) :=
  match DecodeVideoData flvtag payload with
  | inl err => ret (Some err)
  | inr (video, data) =>
      match io_Copy data with
      | inl err => ret (Some err)
      | inr buf =>
          h <- get_handler ;;
          err <- Encoder_Encode (flvEnc h)
                   {| tag_TagType := TagTypeVideo;
                      tag_Timestamp := timestamp;
                      tag_Data := DataVideo video buf |} ;;
          match err with
          | Some e => log_Printf "Failed to write video: %+v" [ArgError e]
          | None => ret tt
          end ;;;
          ret None
      end
  end.

Definition OnClose : M State unit :=
  log_Println "Client disconnected" ;;;
  h <- get_handler ;;
  match flvEnc h with
  | Some _ =>
      match ffmpegIn h with
      | None => panic "invalid memory address or nil pointer dereference"
      | Some p => WriteCloser_Close p ;;; ret tt
      end
  | None => ret tt
  end ;;;
  match ffmpegCmd h with
  | Some c =>
      match Process c with
      | Some pid => Process_Kill pid ;;; ret tt
      | None => ret tt
      end
  | None => ret tt
  end.

(** ** Sequences of callbacks *)

(** What the protocol layer may invoke on a handler. *)
Inductive Call : Type :=
  | CallPublish (timestamp : Z) (cmd : NetStreamPublish)
  | CallSetDataFrame (timestamp : Z) (payload : list Init.Byte.byte)
  | CallAudio (timestamp : Z) (payload : Reader)
  | CallVideo (timestamp : Z) (payload : Reader)
  | CallClose.

Definition call (c : Call) : M State (option error) :=
  match c with
  | CallPublish ts cmd => OnPublish ts cmd
  | CallSetDataFrame ts payload => OnSetDataFrame ts payload
  | CallAudio ts payload => OnAudio ts payload
  | CallVideo ts payload => OnVideo ts payload
  | CallClose => OnClose ;;; ret None
  end.

(** The calls are made in order, whatever each one returns; a panic ends
    the run.  The result lists what each call returned. *)
Fixpoint calls (cs : list Call) : M State (list (option error)) :=
  match cs with
  | [] => ret []
  | c :: rest =>
      r <- call c ;;
      rs <- calls rest ;;
      ret (r :: rs)
  end.

(** ** What can be read off a state *)

(** The state [s] with one more line in the log. *)
Definition logged (s : State) (format : string) (args : list LogArg) : State :=
  mkState (handler s)
    (set_logs (world s) (logs (world s) ++ [mkLog format args])).

Definition audio_tag (ts : Z) (hd : AudioHeader flvtag) (buf : list Init.Byte.byte)
  : FlvTag :=
  {| tag_TagType := TagTypeAudio; tag_Timestamp := ts;
     tag_Data := DataAudio hd buf |}.

Definition video_tag (ts : Z) (hd : VideoHeader flvtag) (buf : list Init.Byte.byte)
  : FlvTag :=
  {| tag_TagType := TagTypeVideo; tag_Timestamp := ts;
     tag_Data := DataVideo hd buf |}.

Definition script_tag (ts : Z) (script : ScriptData flvtag) : FlvTag :=
  {| tag_TagType := TagTypeScriptData; tag_Timestamp := ts;
     tag_Data := DataScript script |}.


Definition pipe_closed (w : World) (p : PipeId) : bool :=
  match pipes w !! p with
  | Some pp => negb (Nat.eqb (pipe_closes pp) 0)
  | None => false
  end.

Definition proc_live (pr : Proc) : bool := Nat.eqb (proc_kills pr) 0.

(** The started processes that nobody has killed. *)
Definition live_procs (w : World) : list Proc := filter (fun pr => proc_live pr = true) (procs w).

Definition open_pipes (w : World) : list Pipe :=
  filter (fun pp => pipe_closes pp = 0) (pipes w).

Definition total_writes (w : World) : nat :=
  foldr (fun pp n => pipe_writes pp + n) 0 (pipes w).

Definition total_closes (w : World) : nat :=
  foldr (fun pp n => pipe_closes pp + n) 0 (pipes w).

Definition total_kills (w : World) : nat :=
  foldr (fun pr n => proc_kills pr + n) 0 (procs w).

(** The directories made so far that lie outside the output root. *)
Definition dirs_outside (w : World) : list string :=
  filter (fun d => Filepath.within output_root d = false) (map fst (dirs w)).

End Hls.

Arguments pipe_closes {flvtag}.
Arguments pipe_writes {flvtag}.
Arguments pipe_data {flvtag}.
Arguments dirs {flvtag}.
Arguments procs {flvtag}.
Arguments pipes {flvtag}.
Arguments logs {flvtag}.
Arguments handler {flvtag}.
Arguments world {flvtag}.
Arguments mkState {flvtag}.
Arguments mkPipe {flvtag}.
Arguments mkWorld {flvtag}.
Arguments empty_World {flvtag}.
Arguments get_handler {flvtag}.
Arguments get_world {flvtag}.
Arguments put_handler {flvtag}.
Arguments put_world {flvtag}.
Arguments set_dirs {flvtag}.
Arguments set_procs {flvtag}.
Arguments set_pipes {flvtag}.
Arguments set_logs {flvtag}.
Arguments log_Printf {flvtag}.
Arguments log_Println {flvtag}.
Arguments close_pipe {flvtag}.
Arguments write_pipe {flvtag}.
Arguments logged {flvtag}.
Arguments audio_tag {flvtag}.
Arguments video_tag {flvtag}.
Arguments script_tag {flvtag}.
Arguments pipe_closed {flvtag}.
Arguments live_procs {flvtag}.
Arguments open_pipes {flvtag}.
Arguments total_writes {flvtag}.
Arguments total_closes {flvtag}.
Arguments total_kills {flvtag}.
Arguments dirs_outside {flvtag}.
Arguments os_MkdirAll {flvtag} os.
Arguments Cmd_StdinPipe {flvtag} os.
Arguments WriteCloser_Close {flvtag} os.
Arguments Cmd_Start {flvtag} os.
Arguments Process_Kill {flvtag} os.
Arguments Pipe_Write {flvtag} os.
Arguments flv_NewEncoder {flvtag} os.
Arguments Encoder_Encode {flvtag} os.
Arguments OnPublish {flvtag} os.
Arguments OnSetDataFrame {flvtag} os.
Arguments OnAudio {flvtag} os.
Arguments OnVideo {flvtag} os.
Arguments OnClose {flvtag} os.
Arguments call {flvtag} os.
Arguments calls {flvtag} os.

(** ** The spec's vocabulary, read off the code *)

(** The spec's names for the failures of [OnPublish], told apart by the
    message the code gives each. *)
Inductive ErrorKind : Type := InvalidRequest | PathError | StartupError.

Definition error_kind (e : error) : option ErrorKind :=
  match e with
  | errors_New msg =>
      if String.eqb msg "PublishingName is empty" then Some InvalidRequest
      else None
  | errors_Wrap _ msg =>
      if String.eqb msg "Failed to create output dir" then Some PathError
      else if String.eqb msg "Failed to get ffmpeg stdin" then Some StartupError
      else if String.eqb msg "Failed to start ffmpeg" then Some StartupError
      else if String.eqb msg "Failed to create FLV encoder" then Some StartupError
      else None
  end.

(** The kind of failure a callback returned, if it returned one. *)
Definition failure_kind {S} (r : Result S (option error)) : option ErrorKind :=
  match r with
  | Returned (Some e) _ => error_kind e
  | _ => None
  end.

(** The handler keeps no state field.  What tells a handler that completed
    a publish from one that did not is the test [OnClose] makes:
    [h.flvEnc != nil]. *)
Inductive Phase : Type := Idle | Publishing.

Definition phase (h : Handler) : Phase :=
  match flvEnc h with
  | Some _ => Publishing
  | None => Idle
  end.

Definition nil_dereference : string :=
  "invalid memory address or nil pointer dereference".

(** What the machine recorded about pipe [p] and process [pid]. *)
Definition closes_of {flvtag} (w : World flvtag) (p : PipeId) : nat :=
  default 0 (pipe_closes <$> pipes w !! p).

Definition writes_of {flvtag} (w : World flvtag) (p : PipeId) : nat :=
  default 0 (pipe_writes <$> pipes w !! p).

Definition data_of {flvtag} (w : World flvtag) (p : PipeId) : list (Chunk flvtag) :=
  default [] (pipe_data <$> pipes w !! p).

Definition kills_of {flvtag} (w : World flvtag) (pid : Pid) : nat :=
  default 0 (proc_kills <$> procs w !! pid).

(** The handler of [s] holds what a completed publish leaves in it: an
    encoder writing to pipe [p], the same pipe as [ffmpegIn], and a command
    whose process is [pid]; pipe and process exist on the machine. *)
Definition published {flvtag} (s : State flvtag) (p : PipeId) (pid : Pid) : Prop :=
  flvEnc (handler s) = Some (mkEncoder p) /\
  ffmpegIn (handler s) = Some p /\
  (exists c, ffmpegCmd (handler s) = Some c /\ Process c = Some pid) /\
  is_Some (pipes (world s) !! p) /\
  is_Some (procs (world s) !! pid).

(** The state [s] with the lines [l] added to the log. *)
Definition with_logs {flvtag} (s : State flvtag) (l : list LogEntry) : State flvtag :=
  mkState (handler s) (set_logs (world s) (logs (world s) ++ l)).

(** A write that the pipe refused: counted, nothing delivered. *)
Definition refuse_pipe {flvtag} (pp : Pipe flvtag) : Pipe flvtag :=
  {| pipe_closes := pipe_closes pp; pipe_writes := S (pipe_writes pp);
     pipe_data := pipe_data pp |}.

(** The state [s] after one write on the closed pipe [p] was refused and
    the refusal logged under [format]. *)
Definition after_refused_write {flvtag} (s : State flvtag) (p : PipeId)
    (format : string) : State flvtag :=
  logged
    (mkState (handler s)
       (set_pipes (world s) (alter refuse_pipe p (pipes (world s)))))
    format [ArgError ErrClosed].

(** The state [s] after [OnClose] logged the disconnect, called [Close] on
    pipe [p] and [Kill] on process [pid]. *)
Definition after_close {flvtag} (s : State flvtag) (p : PipeId) (pid : Pid)
  : State flvtag :=
  let s0 := logged s "Client disconnected" [] in
  mkState (handler s)
    (set_procs
       (set_pipes (world s0) (alter close_pipe p (pipes (world s0))))
       (alter kill_proc pid (procs (world s0)))).

(** The metadata frames of a run, as calls; what a frame whose payload does
    not decode leaves in the log. *)
Definition metadata_calls (frames : list (Z * list Init.Byte.byte))
  : list Call :=
  map (fun f => CallSetDataFrame (fst f) (snd f)) frames.

Definition malformed_metadata (flvtag : FlvCodec) (payload : list Init.Byte.byte) : Prop :=
  exists e, DecodeScriptData flvtag (bytes_NewReader payload) = inl e.

Definition decode_failure_log (flvtag : FlvCodec) (f : Z * list Init.Byte.byte)
  : list LogEntry :=
  match DecodeScriptData flvtag (bytes_NewReader (snd f)) with
  | inl e => [mkLog "Failed to decode script data: %+v" [ArgError e]]
  | inr _ => []
  end.

(** ** A codec and machines to run the handler on *)

Definition io_EOF : error := errors_New "EOF".

(** A one-byte header followed by the body; an empty payload does not
    decode. *)
Definition demo_codec : FlvCodec :=
  {| ScriptData := list Init.Byte.byte;
     AudioHeader := Init.Byte.byte;
     VideoHeader := Init.Byte.byte;
     DecodeScriptData r :=
       match rd_bytes r with
       | [] => inl io_EOF
       | b => inr b
       end;
     DecodeAudioData r :=
       match rd_bytes r with
       | [] => inl io_EOF
       | b :: rest => inr (b, mkReader rest (rd_fault r))
       end;
     DecodeVideoData r :=
       match rd_bytes r with
       | [] => inl io_EOF
       | b :: rest => inr (b, mkReader rest (rd_fault r))
       end |}.

(** A machine on which each kind of operation has a fixed outcome. *)
Definition demo_os (mkdir stdin start header tag : option error) : OS demo_codec :=
  {| MkdirAll_result _ _ _ := mkdir;
     StdinPipe_result _ _ := stdin;
     Start_result _ _ := start;
     Write_result _ _ c :=
       match c with
       | ChunkHeader _ _ => header
       | ChunkTag _ _ => tag
       end;
     Close_result _ _ := None;
     Kill_result _ _ := None |}.

Definition os_good : OS demo_codec := demo_os None None None None None.

Definition os_no_ffmpeg : OS demo_codec :=
  demo_os None None
    (Some (errors_New "exec: ffmpeg: executable file not found in $PATH"))
    None None.

Definition broken_pipe : error := errors_New "write |1: broken pipe".

Definition os_header_fails : OS demo_codec :=
  demo_os None None None (Some broken_pipe) None.

Definition os_tag_fails : OS demo_codec :=
  demo_os None None None None (Some broken_pipe).

Definition init_state : State demo_codec := mkState new_Handler empty_World.

Definition publish_stream1 : NetStreamPublish := mkPublish "stream1" "live".

Definition frame_bytes : list Init.Byte.byte := [Init.Byte.x17; Init.Byte.x01; Init.Byte.x02].

Definition good_frame : Reader := bytes_NewReader frame_bytes.

Definition bad_frame : Reader := bytes_NewReader [].

(** The handler after a publish of "stream1" went through, and after the
    client then disconnected. *)
Definition published_state : State demo_codec :=
  final_state (OnPublish os_good 0 publish_stream1 init_state).

Definition closed_state : State demo_codec :=
  final_state (OnClose os_good published_state).

(** ** Publish names, read as lists of path elements *)

(** The directory and the playlist path [OnPublish] derives from a name. *)
Definition outputDir (name : string) : string :=
  Filepath.Join [output_root; Filepath.Clean name].

Definition m3u8Path (name : string) : string :=
  Filepath.Join [outputDir name; "index.m3u8"].

(** [s] holds no separator. *)
Fixpoint no_separator (s : string) : bool :=
  match s with
  | EmptyString => true
  | String c rest => negb (Filepath.IsPathSeparator c) && no_separator rest
  end.

(** A plain path element: a name that is not empty, not [.], not [..] and
    holds no separator. *)
Definition plain (e : string) : bool :=
  negb (String.eqb e "") && negb (String.eqb e ".") &&
  negb (String.eqb e "..") && no_separator e.

(** [n] times the element [..]. *)
Definition dotdots (n : nat) : list string := replicate n "..".

(** ** The states [OnPublish] passes through *)

(** The command [OnPublish] builds for a name, before and after [Start]. *)
Definition built_cmd (name : string) : Cmd :=
  set_Stderr
    (set_Stdout (exec_Command "ffmpeg" (ffmpeg_args (m3u8Path name))) os_Stdout)
    os_Stderr.

Definition started_cmd (name : string) (pid : Pid) : Cmd :=
  set_Process (built_cmd name) pid.

Definition flv_header {flvtag} : Chunk flvtag :=
  ChunkHeader flvtag (Z.lor FlagsAudio FlagsVideo).

(** After the log line. *)
Definition publish_logged {flvtag} (s : State flvtag) (cmd : NetStreamPublish)
  : State flvtag :=
  logged s "OnPublish: %#v" [ArgPublish cmd].

(** After [MkdirAll]. *)
Definition publish_dir_made {flvtag} (s : State flvtag) (cmd : NetStreamPublish)
  : State flvtag :=
  mkState (handler s)
    (set_dirs (world (publish_logged s cmd))
       (dirs (world s) ++ [(outputDir (PublishingName cmd), 493%Z)])).

(** After [StdinPipe]; [pp] is what the machine holds for the new pipe. *)
Definition publish_pipe_made {flvtag} (s : State flvtag) (cmd : NetStreamPublish)
    (pp : Pipe flvtag) : State flvtag :=
  mkState (handler s)
    (set_pipes (world (publish_dir_made s cmd)) (pipes (world s) ++ [pp])).

(** After [Start] and the two assignments to the handler; [pp] and [kills]
    are what the machine holds for the new pipe and process, and [enc]
    tells whether [flvEnc] was assigned as well. *)
Definition publish_started {flvtag} (s : State flvtag) (cmd : NetStreamPublish)
    (pp : Pipe flvtag) (kills : nat) (enc : bool) : State flvtag :=
  let p := length (pipes (world s)) in
  let c := started_cmd (PublishingName cmd) (length (procs (world s))) in
  mkState
    {| ffmpegCmd := Some c;
       ffmpegIn := Some p;
       flvEnc := if enc then Some (mkEncoder p) else flvEnc (handler s) |}
    (set_procs (world (publish_pipe_made s cmd pp))
       (procs (world s) ++ [mkProc c kills])).

(** A machine on which no step of a publish and no write fails. *)
Definition healthy {flvtag} (os : OS flvtag) : Prop :=
  (forall w path perm, MkdirAll_result flvtag os w path perm = None) /\
  (forall w c, StdinPipe_result flvtag os w c = None) /\
  (forall w c, Start_result flvtag os w c = None) /\
  (forall w p c, Write_result flvtag os w p c = None).

(** ** Frames and runs *)

(** The calls that carry a frame. *)
Definition is_frame (c : Call) : bool :=
  match c with
  | CallSetDataFrame _ _ | CallAudio _ _ | CallVideo _ _ => true
  | CallPublish _ _ | CallClose => false
  end.

(** What a frame call hands to [Encode]: the tag of a payload that decodes
    (and, for audio and video, whose body is copied without a read error),
    nothing otherwise. *)
Definition forwarded (flvtag : FlvCodec) (c : Call) : list (Chunk flvtag) :=
  match c with
  | CallSetDataFrame ts payload =>
      match DecodeScriptData flvtag (bytes_NewReader payload) with
      | inr script => [ChunkTag flvtag (script_tag ts script)]
      | inl _ => []
      end
  | CallAudio ts payload =>
      match DecodeAudioData flvtag payload with
      | inr (hd, body) =>
          match io_Copy body with
          | inr buf => [ChunkTag flvtag (audio_tag ts hd buf)]
          | inl _ => []
          end
      | inl _ => []
      end
  | CallVideo ts payload =>
      match DecodeVideoData flvtag payload with
      | inr (hd, body) =>
          match io_Copy body with
          | inr buf => [ChunkTag flvtag (video_tag ts hd buf)]
          | inl _ => []
          end
      | inl _ => []
      end
  | CallPublish _ _ | CallClose => []
  end.

(** A handler that holds an encoder holds a pipe. *)
Definition encoder_has_pipe (h : Handler) : Prop :=
  flvEnc h <> None -> ffmpegIn h <> None.

(** [s'] differs from [s] at most in the log and in writes on the pipe of
    the handler's encoder: the handler, the directories and the processes
    are the same, no pipe was added, closed or emptied, and every pipe but
    the encoder's is as it was. *)
Definition only_wrote {flvtag} (s s' : State flvtag) : Prop :=
  handler s' = handler s /\
  dirs (world s') = dirs (world s) /\
  procs (world s') = procs (world s) /\
  length (pipes (world s')) = length (pipes (world s)) /\
  (forall q, closes_of (world s') q = closes_of (world s) q) /\
  (forall q, exists more,
     data_of (world s') q = (data_of (world s) q ++ more)%list) /\
  (forall q, flvEnc (handler s) <> Some (mkEncoder q) ->
     pipes (world s') !! q = pipes (world s) !! q).

(** [s'] differs from [s] at most in the log, in calls of [Close] on the
    handler's pipe and in calls of [Kill] on the handler's process: the
    handler and the directories are the same, nothing was written to any
    pipe, no pipe or process was added, and every other pipe and process is
    as it was. *)
Definition only_released {flvtag} (s s' : State flvtag) : Prop :=
  handler s' = handler s /\
  dirs (world s') = dirs (world s) /\
  length (pipes (world s')) = length (pipes (world s)) /\
  length (procs (world s')) = length (procs (world s)) /\
  (forall q, writes_of (world s') q = writes_of (world s) q /\
             data_of (world s') q = data_of (world s) q) /\
  (forall q, ffmpegIn (handler s) <> Some q ->
     pipes (world s') !! q = pipes (world s) !! q) /\
  (forall pid, (forall c, ffmpegCmd (handler s) = Some c -> Process c <> Some pid) ->
     procs (world s') !! pid = procs (world s) !! pid) /\
  (flvEnc (handler s) = None -> pipes (world s') = pipes (world s)) /\
  (ffmpegCmd (handler s) = None -> procs (world s') = procs (world s)).

(** ** The signal handler of [main] *)

(** The two signals [main] asks to be notified of, and how Go prints
    them. *)
Inductive Signal : Type := SIGINT | SIGTERM.

Definition Signal_String (sig : Signal) : string :=
  match sig with
  | SIGINT => "interrupt"
  | SIGTERM => "terminated"
  end.

(** The files of the machine, by path.  [os.Remove] removes the file of
    exactly that name; it expands no pattern, and its error (no such file)
    is dropped by the caller. *)
Definition os_Remove (name : string) (files : gset string) : gset string :=
  files ∖ {[name]}.

(** What the goroutine started by [main] does once a signal has arrived:
    the two lines it prints, the files it leaves, and the status it exits
    with. *)
Record Shutdown : Type := mkShutdown {
  sd_stdout : list string;
  sd_files : gset string;
  sd_status : Z
}.

Definition on_signal (sig : Signal) (files : gset string) : Shutdown :=
  let out1 := ("Received signal: " ++ Signal_String sig)%string in
  let out2 := "Performing graceful shutdown..." in
  let files1 := os_Remove "public/ali/index.m3u8" files in
  let files2 := os_Remove "public/ali/*.ts" files1 in
  {| sd_stdout := [out1; out2]; sd_files := files2; sd_status := 0 |}.

(** ** Frames that go-flv decodes, and a machine with one bad encoder *)

Definition is_publish (c : Call) : bool :=
  match c with
  | CallPublish _ _ => true
  | _ => false
  end.

(** A video payload whose first byte names a codec other than AVC (key
    frame, Sorenson H.263) and an audio payload whose first byte names a
    format other than AAC (MP3): for these go-flv reads the one header byte
    and leaves the rest as the body, as [demo_codec] does. *)
Definition h263_frame : Reader :=
  bytes_NewReader [Init.Byte.x12; Init.Byte.x01; Init.Byte.x02].

Definition mp3_frame : Reader :=
  bytes_NewReader [Init.Byte.x2f; Init.Byte.x01; Init.Byte.x02].

(** The onMetaData key (an AMF0 string) with an empty ECMA array. *)
Definition metadata_bytes : list Init.Byte.byte :=
  [ Init.Byte.x02; Init.Byte.x00; Init.Byte.x0a;
    Init.Byte.x6f; Init.Byte.x6e; Init.Byte.x4d; Init.Byte.x65; Init.Byte.x74;
    Init.Byte.x61; Init.Byte.x44; Init.Byte.x61; Init.Byte.x74; Init.Byte.x61;
    Init.Byte.x08; Init.Byte.x00; Init.Byte.x00; Init.Byte.x00; Init.Byte.x00;
    Init.Byte.x00; Init.Byte.x00; Init.Byte.x09 ].

(** The error [OnPublish] returns when [flv.NewEncoder] failed. *)
Definition encoder_failed (e : error) : bool :=
  match e with
  | errors_Wrap _ msg => String.eqb msg "Failed to create FLV encoder"
  | errors_New _ => false
  end.

(** A machine on which everything succeeds but the FLV header on any pipe
    after the first. *)
Definition os_second_header_fails : OS demo_codec :=
  {| MkdirAll_result _ _ _ := None;
     StdinPipe_result _ _ := None;
     Start_result _ _ := None;
     Write_result _ p c :=
       match c with
       | ChunkHeader _ _ => if Nat.eqb p 0 then None else Some broken_pipe
       | ChunkTag _ _ => None
       end;
     Close_result _ _ := None;
     Kill_result _ _ := None |}.

(** ** Properties of the callbacks *)

(** Unfolds the plumbing of the monad, not the primitives of the machine. *)
Ltac monad_simpl :=
  unfold bind, ret, panic, get_handler, get_world, put_handler, put_world;
  simpl.

Section Properties.

Context (flvtag : FlvCodec) (os : OS flvtag).

Abbreviation St := (State flvtag).

Lemma log_Printf_eq (s : St) format args :
  log_Printf format args s = Returned tt (logged s format args).
Proof. reflexivity. Qed.

(** *** Each frame callback, once its payload has decoded *)

Lemma OnSetDataFrame_decoded (s : St) ts payload script :
  DecodeScriptData flvtag (bytes_NewReader payload) = inr script ->
  OnSetDataFrame os ts payload s =
    match Encoder_Encode os (flvEnc (handler s)) (script_tag ts script) s with
    | Returned (Some e) s' =>
        Returned None (logged s' "Failed to write script data: %+v" [ArgError e])
    | Returned None s' => Returned None s'
    | Panicked msg s' => Panicked msg s'
    end.
Proof.
  intros Hdec. unfold OnSetDataFrame. rewrite Hdec. monad_simpl.
  fold (script_tag ts script).
  destruct (Encoder_Encode _ _ _ s) as [[e|] s'|msg s']; reflexivity.
Qed.

Lemma OnAudio_decoded (s : St) ts payload hd body buf :
  DecodeAudioData flvtag payload = inr (hd, body) ->
  io_Copy body = inr buf ->
  OnAudio os ts payload s =
    match Encoder_Encode os (flvEnc (handler s)) (audio_tag ts hd buf) s with
    | Returned (Some e) s' =>
        Returned None (logged s' "Failed to write audio: %+v" [ArgError e])
    | Returned None s' => Returned None s'
    | Panicked msg s' => Panicked msg s'
    end.
Proof.
  intros Hdec Hcopy. unfold OnAudio. rewrite Hdec, Hcopy. monad_simpl.
  fold (audio_tag ts hd buf).
  destruct (Encoder_Encode _ _ _ s) as [[e|] s'|msg s']; reflexivity.
Qed.

Lemma OnVideo_decoded (s : St) ts payload hd body buf :
  DecodeVideoData flvtag payload = inr (hd, body) ->
  io_Copy body = inr buf ->
  OnVideo os ts payload s =
    match Encoder_Encode os (flvEnc (handler s)) (video_tag ts hd buf) s with
    | Returned (Some e) s' =>
        Returned None (logged s' "Failed to write video: %+v" [ArgError e])
    | Returned None s' => Returned None s'
    | Panicked msg s' => Panicked msg s'
    end.
Proof.
  intros Hdec Hcopy. unfold OnVideo. rewrite Hdec, Hcopy. monad_simpl.
  fold (video_tag ts hd buf).
  destruct (Encoder_Encode _ _ _ s) as [[e|] s'|msg s']; reflexivity.
Qed.

(** C6: [OnPublish] with an empty name returns the error
    "PublishingName is empty" (the spec's InvalidRequest) and does nothing
    else than write its log line: the handler keeps its fields, so its
    phase, and no directory, process or pipe is added to the machine. *)
Theorem C6_empty_name_rejected (s : St) (ts : Z) (ptype : string) :
  let cmd := mkPublish "" ptype in
  let s' := logged s "OnPublish: %#v" [ArgPublish cmd] in
  exists e,
    OnPublish os ts cmd s = Returned (Some e) s' /\
    e = errors_New "PublishingName is empty" /\
    error_kind e = Some InvalidRequest /\
    handler s' = handler s /\
    phase (handler s') = phase (handler s) /\
    dirs (world s') = dirs (world s) /\
    procs (world s') = procs (world s) /\
    pipes (world s') = pipes (world s).
Proof.
  intros cmd s'. exists (errors_New "PublishingName is empty").
  repeat split.
Qed.

(** C8: when the payload of an audio or video frame does not decode, the
    callback returns the decoder's error to its caller and leaves the state
    as it found it: [Encode] is not called and nothing reaches the pipe. *)
Theorem C8_malformed_media_is_fatal (s : St) (ts : Z) (payload : Reader) (e : error) :
  (DecodeAudioData flvtag payload = inl e ->
     OnAudio os ts payload s = Returned (Some e) s) /\
  (DecodeVideoData flvtag payload = inl e ->
     OnVideo os ts payload s = Returned (Some e) s).
Proof.
  split; intros Hdec.
  - unfold OnAudio. rewrite Hdec. reflexivity.
  - unfold OnVideo. rewrite Hdec. reflexivity.
Qed.

(** C9: for an audio or video frame that decoded and was copied, when
    [Encode] returns an error the callback logs it ("Failed to write
    audio" / "Failed to write video") and returns nil. *)
Theorem C9_write_failure_not_propagated
    (s s' : St) (ts : Z) (payload body : Reader)
    (buf : list Init.Byte.byte) (e : error) :
  io_Copy body = inr buf ->
  (forall hd,
     DecodeAudioData flvtag payload = inr (hd, body) ->
     Encoder_Encode os (flvEnc (handler s)) (audio_tag ts hd buf) s =
       Returned (Some e) s' ->
     OnAudio os ts payload s =
       Returned None (logged s' "Failed to write audio: %+v" [ArgError e])) /\
  (forall hd,
     DecodeVideoData flvtag payload = inr (hd, body) ->
     Encoder_Encode os (flvEnc (handler s)) (video_tag ts hd buf) s =
       Returned (Some e) s' ->
     OnVideo os ts payload s =
       Returned None (logged s' "Failed to write video: %+v" [ArgError e])).
Proof.
  intros Hcopy. split; intros hd Hdec Henc.
  - rewrite (OnAudio_decoded s ts payload hd body buf Hdec Hcopy), Henc.
    reflexivity.
  - rewrite (OnVideo_decoded s ts payload hd body buf Hdec Hcopy), Henc.
    reflexivity.
Qed.

(** C10: on a handler whose [flvEnc] is nil, a frame callback whose
    payload decodes calls [Encode] on the nil encoder and panics with a
    nil dereference; it neither returns an error nor drops the frame. *)
Theorem C10_nil_encoder_panics (s : St) (ts : Z) :
  flvEnc (handler s) = None ->
  (forall payload script,
     DecodeScriptData flvtag (bytes_NewReader payload) = inr script ->
     OnSetDataFrame os ts payload s = Panicked nil_dereference s) /\
  (forall payload hd body buf,
     DecodeAudioData flvtag payload = inr (hd, body) ->
     io_Copy body = inr buf ->
     OnAudio os ts payload s = Panicked nil_dereference s) /\
  (forall payload hd body buf,
     DecodeVideoData flvtag payload = inr (hd, body) ->
     io_Copy body = inr buf ->
     OnVideo os ts payload s = Panicked nil_dereference s).
Proof.
  intros Hnil. repeat split.
  - intros payload script Hdec.
    rewrite (OnSetDataFrame_decoded s ts payload script Hdec), Hnil.
    reflexivity.
  - intros payload hd body buf Hdec Hcopy.
    rewrite (OnAudio_decoded s ts payload hd body buf Hdec Hcopy), Hnil.
    reflexivity.
  - intros payload hd body buf Hdec Hcopy.
    rewrite (OnVideo_decoded s ts payload hd body buf Hdec Hcopy), Hnil.
    reflexivity.
Qed.

(** *** Runs of metadata frames *)

Lemma with_logs_nil (s : St) : with_logs s [] = s.
Proof.
  destruct s as [h [d pr pi l]]. unfold with_logs, set_logs. simpl.
  by rewrite app_nil_r.
Qed.

Lemma with_logs_app (s : St) l1 l2 :
  with_logs (with_logs s l1) l2 = with_logs s (l1 ++ l2).
Proof.
  unfold with_logs, set_logs. simpl. by rewrite app_assoc.
Qed.

Lemma OnSetDataFrame_malformed (s : St) ts payload e :
  DecodeScriptData flvtag (bytes_NewReader payload) = inl e ->
  OnSetDataFrame os ts payload s =
    Returned None (with_logs s (decode_failure_log flvtag (ts, payload))).
Proof.
  intros Hdec. unfold OnSetDataFrame, decode_failure_log. simpl.
  rewrite Hdec. reflexivity.
Qed.

(** C7: a run of metadata frames whose payloads all fail to decode returns
    nil from every call and changes nothing but the log, which gets one
    "Failed to decode script data" line per frame: the handler's fields
    (its phase with them), the directories, processes and pipes are those
    of the start, and no call panics. *)
Theorem C7_malformed_metadata_dropped
    (frames : list (Z * list Init.Byte.byte)) (s : St) :
  Forall (fun f => malformed_metadata flvtag (snd f)) frames ->
  let s' := with_logs s (flat_map (decode_failure_log flvtag) frames) in
  calls os (metadata_calls frames) s =
    Returned (replicate (length frames) None) s' /\
  handler s' = handler s /\
  phase (handler s') = phase (handler s) /\
  dirs (world s') = dirs (world s) /\
  procs (world s') = procs (world s) /\
  pipes (world s') = pipes (world s) /\
  length (logs (world s')) = length (logs (world s)) + length frames.
Proof.
  intros Hall. simpl. split; [|repeat split].
  - revert s. induction Hall as [|[ts payload] frames [e He] _ IH]; intros s.
    + simpl. unfold ret. by rewrite with_logs_nil.
    + simpl in He. simpl. unfold bind at 1.
      rewrite (OnSetDataFrame_malformed s ts payload e He).
      unfold bind at 1. rewrite IH. unfold ret.
      by rewrite with_logs_app.
  - simpl. rewrite length_app. f_equal.
    induction Hall as [|[ts payload] frames [e He] _ IH]; [done|].
    simpl in *. unfold decode_failure_log at 1. simpl. rewrite He. simpl.
    by rewrite IH.
Qed.

(** *** The primitives on a pipe or process that exists *)

Lemma WriteCloser_Close_at (s : St) p pp :
  pipes (world s) !! p = Some pp ->
  WriteCloser_Close os p s =
    Returned (Close_result flvtag os (world s) p)
      (mkState (handler s)
         (set_pipes (world s) (alter close_pipe p (pipes (world s))))).
Proof.
  intros Hp. unfold WriteCloser_Close, bind, get_world. cbv beta iota.
  rewrite Hp. reflexivity.
Qed.

Lemma Process_Kill_at (s : St) pid pr :
  procs (world s) !! pid = Some pr ->
  Process_Kill os pid s =
    Returned (Kill_result flvtag os (world s) pid)
      (mkState (handler s)
         (set_procs (world s) (alter kill_proc pid (procs (world s))))).
Proof.
  intros Hp. unfold Process_Kill, bind, get_world. cbv beta iota.
  rewrite Hp. reflexivity.
Qed.

Lemma Pipe_Write_at (s : St) p c pp :
  pipes (world s) !! p = Some pp ->
  let err :=
    if Nat.eqb (pipe_closes pp) 0 then Write_result flvtag os (world s) p c
    else Some ErrClosed in
  Pipe_Write os p c s =
    Returned err
      (mkState (handler s)
         (set_pipes (world s)
            (alter (write_pipe (bool_decide (err = None)) c) p (pipes (world s))))).
Proof.
  intros Hp. unfold Pipe_Write, bind, get_world. cbv beta iota.
  rewrite Hp. reflexivity.
Qed.

Lemma Pipe_Write_closed (s : St) p c pp :
  pipes (world s) !! p = Some pp ->
  pipe_closes pp <> 0 ->
  Pipe_Write os p c s =
    Returned (Some ErrClosed)
      (mkState (handler s)
         (set_pipes (world s) (alter refuse_pipe p (pipes (world s))))).
Proof.
  intros Hp Hc. rewrite (Pipe_Write_at s p c pp Hp). simpl.
  destruct (Nat.eqb_spec (pipe_closes pp) 0) as [|_]; [done|].
  reflexivity.
Qed.

(** *** [OnClose] on a handler that completed a publish *)

Lemma OnClose_published (s : St) p pid :
  published s p pid ->
  OnClose os s = Returned tt (after_close s p pid).
Proof.
  intros (Henc & Hin & (c & Hcmd & Hproc) & [pp Hpp] & [pr Hpr]).
  unfold OnClose, log_Println. unfold bind at 1. rewrite log_Printf_eq.
  unfold bind at 1. unfold get_handler at 1. simpl.
  rewrite Henc, Hin, Hcmd, Hproc.
  unfold bind at 1. unfold bind at 1.
  rewrite (WriteCloser_Close_at _ p pp) by exact Hpp.
  unfold ret at 1. unfold bind at 1.
  rewrite (Process_Kill_at _ pid pr) by exact Hpr.
  reflexivity.
Qed.

Lemma after_close_published (s : St) p pid :
  published s p pid -> published (after_close s p pid) p pid.
Proof.
  intros (Henc & Hin & Hcmd & [pp Hpp] & [pr Hpr]).
  unfold published, after_close. simpl. repeat split; try done.
  - exists (close_pipe pp). by rewrite list_lookup_alter_eq, Hpp.
  - exists (kill_proc pr). by rewrite list_lookup_alter_eq, Hpr.
Qed.

Lemma after_close_counts (s : St) p pid :
  published s p pid ->
  closes_of (world (after_close s p pid)) p = S (closes_of (world s) p) /\
  kills_of (world (after_close s p pid)) pid = S (kills_of (world s) pid) /\
  writes_of (world (after_close s p pid)) p = writes_of (world s) p /\
  data_of (world (after_close s p pid)) p = data_of (world s) p.
Proof.
  intros (_ & _ & _ & [pp Hpp] & [pr Hpr]).
  unfold closes_of, kills_of, writes_of, data_of, after_close. simpl.
  rewrite !list_lookup_alter_eq, Hpp, Hpr. done.
Qed.

(** *** [OnPublish] when it returns nil *)

(** Whatever the handler held before, a call of [OnPublish] that returns
    nil has made the directory, opened one more pipe, started one more
    process, written the FLV header, and bound the handler's three fields to
    the new pipe and process.  Earlier pipes and processes are a prefix of
    the new tables: they are left as they were. *)
Lemma OnPublish_returns_nil (s s' : St) ts cmd :
  OnPublish os ts cmd s = Returned None s' ->
  let p := length (pipes (world s)) in
  let pid := length (procs (world s)) in
  exists c,
    Process c = Some pid /\
    handler s' =
      {| ffmpegCmd := Some c; ffmpegIn := Some p; flvEnc := Some (mkEncoder p) |} /\
    procs (world s') = (procs (world s) ++ [mkProc c 0])%list /\
    pipes (world s') =
      (pipes (world s) ++ [mkPipe 0 1 [ChunkHeader flvtag (Z.lor FlagsAudio FlagsVideo)]])%list /\
    dirs (world s') =
      (dirs (world s) ++
        [(Filepath.Join [output_root; Filepath.Clean (PublishingName cmd)], 493%Z)])%list.
Proof.
  destruct s as [h w]. unfold OnPublish.
  unfold bind at 1. rewrite log_Printf_eq.
  destruct (String.eqb (PublishingName cmd) ""); [discriminate|].
  set (dir := Filepath.Join _).
  unfold os_MkdirAll, Cmd_StdinPipe, Cmd_Start, flv_NewEncoder.
  unfold bind, get_world, put_world, get_handler, put_handler, ret.
  cbv beta iota.
  destruct (MkdirAll_result _ _ _ _ _) as [e|]; [discriminate|].
  cbv beta iota.
  destruct (StdinPipe_result _ _ _ _) as [e|]; [discriminate|].
  cbv beta iota.
  destruct (Start_result _ _ _ _) as [e|]; [discriminate|].
  cbv beta iota.
  cbn [handler world logged set_dirs set_pipes set_procs set_logs
       dirs procs pipes logs].
  rewrite (Pipe_Write_at _ (length (pipes w)) _ (mkPipe 0 0 []))
    by (cbn [world set_procs pipes]; apply list_lookup_middle; reflexivity).
  cbn [pipe_closes Nat.eqb handler world set_procs set_pipes pipes procs dirs
       set_dirs set_logs logs].
  destruct (Write_result _ _ _ _ _) as [e|]; cbv beta iota.
  - destruct (WriteCloser_Close _ _) as [? s1|? s1]; [|discriminate].
    cbn [Process set_Process].
    destruct (Process_Kill _ _); discriminate.
  - intros [= <-].
    exists (set_Process
              (set_Stderr
                 (set_Stdout
                    (exec_Command "ffmpeg"
                       (ffmpeg_args (Filepath.Join [dir; "index.m3u8"])))
                    os_Stdout)
                 os_Stderr)
              (length (procs w))).
    split; [reflexivity|].
    cbn [handler world set_flvEnc set_ffmpegIn set_ffmpegCmd ffmpegCmd ffmpegIn
         flvEnc set_procs set_pipes pipes procs dirs].
    repeat split.
    rewrite alter_app_r_alt by reflexivity. rewrite Nat.sub_diag.
    reflexivity.
Qed.

Lemma OnPublish_publishes (s s' : St) ts cmd :
  OnPublish os ts cmd s = Returned None s' ->
  published s' (length (pipes (world s))) (length (procs (world s))).
Proof.
  intros H. destruct (OnPublish_returns_nil s s' ts cmd H)
    as (c & Hproc & Hh & Hprocs & Hpipes & _).
  unfold published. rewrite Hh, Hprocs, Hpipes. simpl.
  repeat split.
  - by exists c.
  - eexists. by apply list_lookup_middle.
  - eexists. by apply list_lookup_middle.
Qed.

(** C2 (as the code has it): [OnPublish] does not look at what the handler
    already holds.  On a handler that completed a publish, a second call
    that returns nil has started one more process and opened one more pipe;
    the first process and the first pipe are left as they were, neither
    killed nor closed, and the handler no longer names them: its fields are
    bound to the new pipe and the new process. *)
Theorem C2_second_publish_spawns_again (s s' : St) (ts : Z)
    (cmd : NetStreamPublish) (p : PipeId) (pid : Pid) :
  published s p pid ->
  OnPublish os ts cmd s = Returned None s' ->
  let p' := length (pipes (world s)) in
  let pid' := length (procs (world s)) in
  published s' p' pid' /\ p <> p' /\ pid <> pid' /\
  length (procs (world s')) = S (length (procs (world s))) /\
  length (pipes (world s')) = S (length (pipes (world s))) /\
  pipes (world s') !! p = pipes (world s) !! p /\
  procs (world s') !! pid = procs (world s) !! pid /\
  kills_of (world s') pid' = 0 /\ closes_of (world s') p' = 0 /\
  length (live_procs (world s')) = S (length (live_procs (world s))).
Proof.
  intros (_ & _ & _ & Hp & Hpid) H. simpl.
  pose proof (OnPublish_publishes s s' ts cmd H) as Hpub.
  destruct (OnPublish_returns_nil s s' ts cmd H)
    as (c & Hproc & Hh & Hprocs & Hpipes & _).
  apply lookup_lt_is_Some in Hp, Hpid.
  split; [exact Hpub|].
  split; [lia|]. split; [lia|].
  rewrite Hprocs, Hpipes, !length_app. simpl.
  split; [lia|]. split; [lia|].
  split; [by apply lookup_app_l|]. split; [by apply lookup_app_l|].
  unfold kills_of, closes_of, live_procs. rewrite Hprocs, Hpipes.
  rewrite !list_lookup_middle by reflexivity. simpl.
  split; [done|]. split; [done|].
  rewrite filter_app, length_app. simpl. lia.
Qed.

(** C3 (as the code has it): [OnClose] never assigns to the handler, so a
    second call finds the handler of the first and leaves it again as it
    is; the handler has no closed state and still holds its encoder.  On a
    handler that completed a publish, each call calls [Close] on the pipe
    and [Kill] on the process once more: after two calls both were called
    twice. *)
Theorem C3_close_repeats_release (s : St) (p : PipeId) (pid : Pid) :
  published s p pid ->
  let s1 := after_close s p pid in
  let s2 := after_close s1 p pid in
  OnClose os s = Returned tt s1 /\
  OnClose os s1 = Returned tt s2 /\
  handler s1 = handler s /\
  handler s2 = handler s /\
  phase (handler s2) = Publishing /\
  closes_of (world s1) p = S (closes_of (world s) p) /\
  closes_of (world s2) p = S (S (closes_of (world s) p)) /\
  kills_of (world s1) pid = S (kills_of (world s) pid) /\
  kills_of (world s2) pid = S (S (kills_of (world s) pid)).
Proof.
  intros Hpub s1 s2. subst s1 s2.
  pose proof (after_close_published s p pid Hpub) as Hpub1.
  destruct (after_close_counts s p pid Hpub) as (Hc1 & Hk1 & _ & _).
  destruct (after_close_counts _ p pid Hpub1) as (Hc2 & Hk2 & _ & _).
  split; [by apply OnClose_published|].
  split; [by apply OnClose_published|].
  split; [reflexivity|]. split; [reflexivity|].
  split.
  { destruct Hpub as (Henc & _). unfold phase, after_close.
    cbn [handler]. by rewrite Henc. }
  rewrite Hc2, Hk2, Hc1, Hk1. done.
Qed.

(** *** Frames after [OnClose] *)

Lemma Encode_on_closed_pipe (s : St) p pid t :
  published s p pid ->
  closes_of (world s) p <> 0 ->
  Encoder_Encode os (flvEnc (handler s)) t s =
    Returned (Some ErrClosed)
      (mkState (handler s)
         (set_pipes (world s) (alter refuse_pipe p (pipes (world s))))).
Proof.
  intros (Henc & _ & _ & [pp Hpp] & _) Hclosed.
  rewrite Henc. unfold Encoder_Encode. simpl.
  apply (Pipe_Write_closed s p _ pp Hpp).
  unfold closes_of in Hclosed. by rewrite Hpp in Hclosed.
Qed.

Lemma after_refused_write_facts (s : St) p pid format :
  published s p pid ->
  let s' := after_refused_write s p format in
  handler s' = handler s /\
  dirs (world s') = dirs (world s) /\
  procs (world s') = procs (world s) /\
  data_of (world s') p = data_of (world s) p /\
  closes_of (world s') p = closes_of (world s) p /\
  writes_of (world s') p = S (writes_of (world s) p).
Proof.
  intros (_ & _ & _ & [pp Hpp] & _). simpl.
  unfold data_of, closes_of, writes_of, after_refused_write. simpl.
  rewrite !list_lookup_alter_eq, Hpp. done.
Qed.

(** Frames on a handler whose encoder writes to the pipe in [ffmpegIn],
    once that pipe is closed: a write is attempted and refused, the refusal
    is logged, the callback returns nil. *)
Lemma frames_on_closed_pipe (s : St) (p : PipeId) (pid : Pid) :
  published s p pid ->
  closes_of (world s) p <> 0 ->
  (forall ts payload script,
     DecodeScriptData flvtag (bytes_NewReader payload) = inr script ->
     OnSetDataFrame os ts payload s =
       Returned None (after_refused_write s p "Failed to write script data: %+v")) /\
  (forall ts payload hd body buf,
     DecodeAudioData flvtag payload = inr (hd, body) ->
     io_Copy body = inr buf ->
     OnAudio os ts payload s =
       Returned None (after_refused_write s p "Failed to write audio: %+v")) /\
  (forall ts payload hd body buf,
     DecodeVideoData flvtag payload = inr (hd, body) ->
     io_Copy body = inr buf ->
     OnVideo os ts payload s =
       Returned None (after_refused_write s p "Failed to write video: %+v")) /\
  (forall format,
     let s' := after_refused_write s p format in
     handler s' = handler s /\
     dirs (world s') = dirs (world s) /\
     procs (world s') = procs (world s) /\
     length (pipes (world s')) = length (pipes (world s)) /\
     data_of (world s') p = data_of (world s) p /\
     closes_of (world s') p = closes_of (world s) p /\
     writes_of (world s') p = S (writes_of (world s) p)).
Proof.
  intros Hpub Hclosed.
  split; [|split; [|split; [|]]].
  - intros ts payload script Hdec.
    rewrite (OnSetDataFrame_decoded _ ts payload script Hdec).
    by rewrite (Encode_on_closed_pipe _ p pid _ Hpub Hclosed).
  - intros ts payload hd body buf Hdec Hcopy.
    rewrite (OnAudio_decoded _ ts payload hd body buf Hdec Hcopy).
    by rewrite (Encode_on_closed_pipe _ p pid _ Hpub Hclosed).
  - intros ts payload hd body buf Hdec Hcopy.
    rewrite (OnVideo_decoded _ ts payload hd body buf Hdec Hcopy).
    by rewrite (Encode_on_closed_pipe _ p pid _ Hpub Hclosed).
  - intros format s'. subst s'.
    destruct (after_refused_write_facts _ p pid format Hpub)
      as (Hh & Hd & Hpr & Hdata & Hc & Hw).
    repeat split; try done.
    unfold after_refused_write. simpl. by rewrite !length_alter.
Qed.

End Properties.

(** ** The callbacks on the demo machines *)

(** *** [filepath.Clean] and [filepath.Join] on sample paths *)

Example Clean_ex1 : Filepath.Clean "a//b/./c/.." = "a/b". Proof. reflexivity. Qed.
Example Clean_ex2 : Filepath.Clean "../../etc" = "../../etc". Proof. reflexivity. Qed.
Example Clean_ex3 : Filepath.Clean "/../a/../.." = "/". Proof. reflexivity. Qed.
Example Clean_ex4 : Filepath.Clean "a/../.." = "..". Proof. reflexivity. Qed.
Example Clean_ex5 : Filepath.Clean "./" = ".". Proof. reflexivity. Qed.
Example Clean_ex6 : Filepath.Clean "../a/.." = "..". Proof. reflexivity. Qed.
Example Clean_ex7 : Filepath.Clean "///" = "/". Proof. reflexivity. Qed.
Example Clean_ex8 : Filepath.Clean "abc/./../def/" = "def". Proof. reflexivity. Qed.
Example Join_ex1 : Filepath.Join ["public"; "../../etc"] = "../etc". Proof. reflexivity. Qed.
Example Join_ex2 : Filepath.Join ["public"; "stream1"] = "public/stream1". Proof. reflexivity. Qed.
Example Join_ex3 : Filepath.Join [""; "a"; ""] = "a". Proof. reflexivity. Qed.

Example published_state_published : published published_state 0 0.
Proof.
  unfold published. repeat split; try reflexivity.
  - eexists. split; reflexivity.
  - by eexists.
  - by eexists.
Qed.

(** *** C1: a publish name that climbs out of the output root *)

(** C1, on the code: for the name "../../etc" the directory handed to
    [MkdirAll] is "../etc", outside "public".  Nothing checks it: on a
    machine where every step succeeds [OnPublish] returns nil, the
    directory is made, and ffmpeg is started on "../etc/index.m3u8". *)
Theorem C1_traversal_not_rejected :
  let cmd := mkPublish "../../etc" "live" in
  let r := OnPublish os_good 0 cmd init_state in
  Filepath.Join [output_root; Filepath.Clean (PublishingName cmd)] = "../etc" /\
  Filepath.within output_root "../etc" = false /\
  returned r = Some None /\
  dirs (world (final_state r)) = [("../etc", 493%Z)] /\
  dirs_outside (world (final_state r)) = ["../etc"] /\
  (Args <$> (ffmpegCmd (handler (final_state r)))) =
    Some ("ffmpeg" :: ffmpeg_args "../etc/index.m3u8") /\
  phase (handler (final_state r)) = Publishing.
Proof. vm_compute. repeat split. Qed.

(** *** C2: a second publish *)

(** Two publishes of "stream1" on one handler, both accepted: two ffmpeg
    processes are alive, the pipe of the first is still open, and the
    handler names only the second pipe. *)
Lemma C2_double_publish_counterexample :
  let s1 := final_state (OnPublish os_good 0 publish_stream1 init_state) in
  let r2 := OnPublish os_good 0 publish_stream1 s1 in
  let s2 := final_state r2 in
  phase (handler s1) = Publishing /\
  returned r2 = Some None /\
  length (procs (world s1)) = 1 /\
  length (procs (world s2)) = 2 /\
  length (live_procs (world s2)) = 2 /\
  ~ length (live_procs (world s2)) <= 1 /\
  ffmpegIn (handler s1) = Some 0 /\
  ffmpegIn (handler s2) = Some 1 /\
  closes_of (world s2) 0 = 0.
Proof. vm_compute. repeat split. lia. Qed.

(** The second publish of "stream1" on the demo machine. *)
Lemma C2_witness :
  let s' := final_state (OnPublish os_good 0 publish_stream1 published_state) in
  published s' 1 1 /\ 0 <> 1 /\ 0 <> 1 /\
  length (procs (world s')) = 2 /\
  length (pipes (world s')) = 2 /\
  pipes (world s') !! 0 = pipes (world published_state) !! 0 /\
  procs (world s') !! 0 = procs (world published_state) !! 0 /\
  kills_of (world s') 1 = 0 /\ closes_of (world s') 1 = 0 /\
  length (live_procs (world s')) = 2.
Proof.
  exact (C2_second_publish_spawns_again demo_codec os_good published_state
           (final_state (OnPublish os_good 0 publish_stream1 published_state))
           0 publish_stream1 0 0
           published_state_published eq_refl).
Defined.

(** *** C3: closing twice *)

(** Two calls of [OnClose] after a publish: the second one returns like
    the first and is not a no-op: [Close] and [Kill] were each called
    twice. *)
Lemma C3_double_close_counterexample :
  let r1 := OnClose os_good published_state in
  let r2 := OnClose os_good (final_state r1) in
  returned r1 = Some tt /\ returned r2 = Some tt /\
  closes_of (world (final_state r1)) 0 = 1 /\
  closes_of (world (final_state r2)) 0 = 2 /\
  kills_of (world (final_state r1)) 0 = 1 /\
  kills_of (world (final_state r2)) 0 = 2 /\
  pipes (world (final_state r2)) <> pipes (world (final_state r1)) /\
  procs (world (final_state r2)) <> procs (world (final_state r1)).
Proof. vm_compute. repeat split; discriminate. Qed.

(** Closing the published demo handler twice. *)
Lemma C3_witness :
  let s1 := after_close published_state 0 0 in
  let s2 := after_close s1 0 0 in
  OnClose os_good published_state = Returned tt s1 /\
  OnClose os_good s1 = Returned tt s2 /\
  handler s1 = handler published_state /\
  handler s2 = handler published_state /\
  phase (handler s2) = Publishing /\
  closes_of (world s1) 0 = 1 /\
  closes_of (world s2) 0 = 2 /\
  kills_of (world s1) 0 = 1 /\
  kills_of (world s2) 0 = 2.
Proof.
  exact (C3_close_repeats_release demo_codec os_good published_state 0 0
           published_state_published).
Defined.

(** *** C5: the encoder cannot be created *)

(** C5, on the code: when [flv.NewEncoder] fails, [OnPublish] closes the
    pipe, kills the process and returns "Failed to create FLV encoder", and
    [flvEnc] stays nil; but [ffmpegCmd] and [ffmpegIn] were assigned before
    the encoder was created and are not cleared, so the handler goes on
    holding the closed pipe and the killed process.  A later [OnClose]
    kills that process a second time.  When the start of ffmpeg fails
    instead, the handler is left without any handle. *)
Theorem C5_encoder_failure_keeps_handles :
  let r := OnPublish os_header_fails 0 publish_stream1 init_state in
  let s := final_state r in
  let r0 := OnPublish os_no_ffmpeg 0 publish_stream1 init_state in
  failure_kind r = Some StartupError /\
  phase (handler s) = Idle /\
  closes_of (world s) 0 = 1 /\
  kills_of (world s) 0 = 1 /\
  ffmpegIn (handler s) = Some 0 /\
  (Process <$> ffmpegCmd (handler s)) = Some (Some 0) /\
  handler s <> new_Handler /\
  kills_of (world (final_state (OnClose os_header_fails s))) 0 = 2 /\
  failure_kind r0 = Some StartupError /\
  handler (final_state r0) = new_Handler /\
  procs (world (final_state r0)) = [] /\
  closes_of (world (final_state r0)) 0 = 1.
Proof. vm_compute. repeat split; discriminate. Qed.

(** *** Witnesses of the remaining theorems *)

(** Two empty metadata payloads on the published demo handler. *)
Lemma C7_witness :
  let frames := [(0%Z, []); (40%Z, [])] in
  let s' := with_logs published_state (flat_map (decode_failure_log demo_codec) frames) in
  calls os_good (metadata_calls frames) published_state =
    Returned [None; None] s' /\
  handler s' = handler published_state /\
  phase (handler s') = Publishing /\
  dirs (world s') = dirs (world published_state) /\
  procs (world s') = procs (world published_state) /\
  pipes (world s') = pipes (world published_state) /\
  length (logs (world s')) = 3.
Proof.
  apply (C7_malformed_metadata_dropped demo_codec os_good
           [(0%Z, []); (40%Z, [])] published_state).
  repeat constructor; exists io_EOF; reflexivity.
Defined.

(** An empty audio or video payload on the published demo handler. *)
Lemma C8_witness :
  OnAudio os_good 40 bad_frame published_state =
    Returned (Some io_EOF) published_state /\
  OnVideo os_good 40 bad_frame published_state =
    Returned (Some io_EOF) published_state.
Proof.
  destruct (C8_malformed_media_is_fatal demo_codec os_good published_state
              40 bad_frame io_EOF) as [Ha Hv].
  split; [exact (Ha eq_refl)|exact (Hv eq_refl)].
Defined.

(** A frame that decodes, on a machine whose pipe refuses every tag. *)
Lemma C9_witness :
  let s := final_state (OnPublish os_tag_fails 0 publish_stream1 init_state) in
  let body := [Init.Byte.x01; Init.Byte.x02] in
  OnAudio os_tag_fails 40 good_frame s =
    Returned None
      (logged
         (final_state
            (Encoder_Encode os_tag_fails (flvEnc (handler s))
               (audio_tag (flvtag:=demo_codec) 40 Init.Byte.x17 body) s))
         "Failed to write audio: %+v" [ArgError broken_pipe]) /\
  OnVideo os_tag_fails 40 good_frame s =
    Returned None
      (logged
         (final_state
            (Encoder_Encode os_tag_fails (flvEnc (handler s))
               (video_tag (flvtag:=demo_codec) 40 Init.Byte.x17 body) s))
         "Failed to write video: %+v" [ArgError broken_pipe]) /\
  data_of
    (world
       (final_state
          (Encoder_Encode os_tag_fails (flvEnc (handler s))
             (audio_tag (flvtag:=demo_codec) 40 Init.Byte.x17 body) s))) 0 =
    data_of (world s) 0.
Proof.
  intros s body.
  set (sa := final_state
               (Encoder_Encode os_tag_fails (flvEnc (handler s))
                  (audio_tag (flvtag:=demo_codec) 40 Init.Byte.x17 body) s)).
  destruct (C9_write_failure_not_propagated demo_codec os_tag_fails s sa
              40 good_frame (bytes_NewReader body) body broken_pipe eq_refl)
    as [Ha Hv].
  split; [exact (Ha Init.Byte.x17 eq_refl eq_refl)|].
  split; [exact (Hv Init.Byte.x17 eq_refl eq_refl)|reflexivity].
Defined.

(** Frames that decode, on a handler that never published. *)
Lemma C10_witness :
  flvEnc (handler init_state) = None /\
  OnSetDataFrame os_good 40 frame_bytes init_state =
    Panicked nil_dereference init_state /\
  OnAudio os_good 40 good_frame init_state =
    Panicked nil_dereference init_state /\
  OnVideo os_good 40 good_frame init_state =
    Panicked nil_dereference init_state.
Proof.
  destruct (C10_nil_encoder_panics demo_codec os_good init_state 40 eq_refl)
    as (Hs & Ha & Hv).
  split; [reflexivity|].
  split; [exact (Hs frame_bytes frame_bytes eq_refl)|].
  split; [exact (Ha good_frame _ _ _ eq_refl eq_refl)
         |exact (Hv good_frame _ _ _ eq_refl eq_refl)].
Defined.

(** ** The directory of a publish name *)

Section PathElements.

Import Filepath.

Lemma string_app_cons (x : ascii) (a b : string) :
  (String x a ++ b = String x (a ++ b))%string.
Proof. reflexivity. Qed.

Lemma string_app_assoc (a b c : string) : ((a ++ b) ++ c = a ++ (b ++ c))%string.
Proof.
  induction a as [|x a IH]; [done|].
  rewrite !string_app_cons. by f_equal.
Qed.

Lemma string_app_nil_r (a : string) : (a ++ "" = a)%string.
Proof.
  induction a as [|x a IH]; [done|].
  rewrite string_app_cons. by f_equal.
Qed.

Lemma elements_from_no_separator (cur e : string) :
  no_separator e = true -> elements_from cur e = [(cur ++ e)%string].
Proof.
  revert cur. induction e as [|c e IH]; intros cur H; simpl in *.
  - by rewrite string_app_nil_r.
  - apply andb_true_iff in H as [Hc He].
    apply negb_true_iff in Hc. rewrite Hc, IH by done.
    by rewrite string_app_assoc, string_app_cons.
Qed.

Lemma elements_from_element (cur e rest : string) :
  no_separator e = true ->
  elements_from cur (e ++ String Separator rest) =
    (cur ++ e)%string :: elements_from "" rest.
Proof.
  revert cur. induction e as [|c e IH]; intros cur H; simpl in *.
  - by rewrite string_app_nil_r.
  - apply andb_true_iff in H as [Hc He].
    apply negb_true_iff in Hc. rewrite Hc, IH by done.
    by rewrite string_app_assoc, string_app_cons.
Qed.

Lemma join_sep_cons (e e' : string) (l : list string) :
  join_sep (e :: e' :: l) = (e ++ String Separator (join_sep (e' :: l)))%string.
Proof. reflexivity. Qed.

(** Splitting a joined list of separator-free elements gives the list
    back. *)
Lemma elements_join_sep (l : list string) :
  l <> [] ->
  Forall (fun e => no_separator e = true) l ->
  elements (join_sep l) = l.
Proof.
  intros Hne Hall. unfold elements.
  induction Hall as [|e l He Hall IH]; [done|].
  destruct l as [|e' l].
  - simpl. by rewrite elements_from_no_separator.
  - rewrite join_sep_cons, elements_from_element by done.
    simpl. f_equal. by apply IH.
Qed.

Lemma plain_inv (e : string) :
  plain e = true ->
  String.eqb e "" = false /\ String.eqb e "." = false /\
  String.eqb e ".." = false /\ no_separator e = true.
Proof.
  unfold plain. rewrite !andb_true_iff, !negb_true_iff. tauto.
Qed.

Lemma plain_no_separator (l : list string) :
  Forall (fun e => plain e = true) l ->
  Forall (fun e => no_separator e = true) l.
Proof.
  intros H. eapply Forall_impl; [exact H|].
  intros e He. by destruct (plain_inv e He) as (_ & _ & _ & ?).
Qed.

Lemma dotdots_no_separator (n : nat) :
  Forall (fun e => no_separator e = true) (dotdots n).
Proof. apply Forall_replicate. reflexivity. Qed.

Lemma clean_step_plain (r : bool) (out : list string) (e : string) :
  plain e = true -> clean_step r out e = e :: out.
Proof.
  intros (H0 & H1 & H2 & _)%plain_inv. unfold clean_step.
  by rewrite H0, H1, H2.
Qed.

Lemma clean_step_pop (r : bool) (out : list string) (e : string) :
  plain e = true -> clean_step r (e :: out) ".." = out.
Proof.
  intros (_ & _ & H2 & _)%plain_inv. unfold clean_step. simpl.
  by rewrite H2.
Qed.

Lemma clean_step_keep (n : nat) :
  clean_step false (dotdots n) ".." = dotdots (S n).
Proof. by destruct n. Qed.

Lemma fold_clean_plain (r : bool) (l out : list string) :
  Forall (fun e => plain e = true) l ->
  fold_left (clean_step r) l out = (rev l ++ out)%list.
Proof.
  intros Hall. revert out.
  induction Hall as [|e l He _ IH]; intros out; simpl; [done|].
  rewrite clean_step_plain, IH by done. by rewrite <- app_assoc.
Qed.

Lemma fold_clean_dotdots (n m : nat) :
  fold_left (clean_step false) (dotdots n) (dotdots m) = dotdots (n + m).
Proof.
  revert m. induction n as [|n IH]; intros m; [done|].
  change (dotdots (S n)) with (".." :: dotdots n). simpl fold_left.
  rewrite clean_step_keep, IH. f_equal. lia.
Qed.

Lemma rev_dotdots (n : nat) : rev (dotdots n) = dotdots n.
Proof.
  induction n as [|n IH]; [done|].
  change (dotdots (S n)) with (".." :: dotdots n). simpl. rewrite IH.
  clear IH. induction n as [|n IH]; [done|].
  change (dotdots (S n)) with (".." :: dotdots n). simpl. by rewrite IH.
Qed.

(** The loop of [Clean] on a relative path made of [n] leading [..]
    followed by plain elements keeps every element. *)
Lemma fold_clean_relative (n : nat) (l : list string) :
  Forall (fun e => plain e = true) l ->
  rev (fold_left (clean_step false) (dotdots n ++ l) []) = (dotdots n ++ l)%list.
Proof.
  intros Hall. rewrite fold_left_app.
  pose proof (fold_clean_dotdots n 0) as Hd.
  rewrite Nat.add_0_r in Hd. change (dotdots 0) with (@nil string) in Hd.
  rewrite Hd, fold_clean_plain by done.
  by rewrite rev_app_distr, rev_involutive, rev_dotdots.
Qed.

(** Behind a leading plain element, the first [..] cancels it. *)
Lemma fold_clean_under (root : string) (n : nat) (l : list string) :
  plain root = true ->
  Forall (fun e => plain e = true) l ->
  rev (fold_left (clean_step false) (root :: dotdots n ++ l) []) =
    match n with
    | 0 => root :: l
    | S m => (dotdots m ++ l)%list
    end.
Proof.
  intros Hroot Hall. simpl fold_left at 1.
  rewrite (clean_step_plain false [] root Hroot).
  destruct n as [|m].
  - simpl. rewrite fold_clean_plain by done.
    by rewrite rev_app_distr, rev_involutive.
  - change (dotdots (S m)) with (".." :: dotdots m). simpl fold_left at 1.
    rewrite (clean_step_pop false [] root Hroot).
    by apply fold_clean_relative.
Qed.

Lemma join_sep_head (e : string) (l : list string) :
  String.eqb e "" = false ->
  no_separator e = true ->
  String.eqb (join_sep (e :: l)) "" = false /\ rooted (join_sep (e :: l)) = false.
Proof.
  intros He Hsep. destruct e as [|c e]; [done|].
  simpl in Hsep. apply andb_true_iff in Hsep as [Hc _].
  apply negb_true_iff in Hc.
  destruct l as [|e' l]; [by simpl|].
  rewrite join_sep_cons, string_app_cons. by simpl.
Qed.

(** [Clean] on a joined list of separator-free elements that does not start
    with an empty one: the loop runs over that list. *)
Lemma Clean_join_sep (e : string) (l : list string) :
  String.eqb e "" = false ->
  Forall (fun x => no_separator x = true) (e :: l) ->
  Clean (join_sep (e :: l)) =
    let body := join_sep (rev (fold_left (clean_step false) (e :: l) [])) in
    if String.eqb body "" then "." else body.
Proof.
  intros He Hall. unfold Clean.
  destruct (join_sep_head e l He) as [Hne Hroot]; [by inversion Hall|].
  rewrite Hne, Hroot, elements_join_sep by done. reflexivity.
Qed.

Lemma relative_head (n : nat) (l : list string) :
  Forall (fun e => plain e = true) l ->
  (dotdots n ++ l)%list <> [] ->
  exists e rest,
    (dotdots n ++ l)%list = e :: rest /\ String.eqb e "" = false.
Proof.
  intros Hall Hne. destruct n as [|n].
  - destruct Hall as [|e l He _]; [done|].
    exists e, l. split; [done|]. by destruct (plain_inv e He).
  - by exists "..", (dotdots n ++ l)%list.
Qed.

Lemma relative_no_separator (n : nat) (l : list string) :
  Forall (fun e => plain e = true) l ->
  Forall (fun e => no_separator e = true) (dotdots n ++ l).
Proof.
  intros Hall. apply Forall_app. split.
  - apply dotdots_no_separator.
  - by apply plain_no_separator.
Qed.

(** A relative path of leading [..] and plain elements is clean. *)
Lemma Clean_relative (n : nat) (l : list string) :
  Forall (fun e => plain e = true) l ->
  (dotdots n ++ l)%list <> [] ->
  Clean (join_sep (dotdots n ++ l)) = join_sep (dotdots n ++ l).
Proof.
  intros Hall Hne.
  pose proof (relative_no_separator n l Hall) as Hsep.
  destruct (relative_head n l Hall Hne) as (e & rest & Heq & He).
  rewrite Heq in Hsep |- *.
  rewrite (Clean_join_sep e rest He Hsep). cbv zeta.
  rewrite <- Heq, fold_clean_relative, Heq by done.
  destruct (join_sep_head e rest He) as [-> _]; [by inversion Hsep|done].
Qed.

Lemma output_root_plain : plain output_root = true.
Proof. reflexivity. Qed.

(** The directory of a name that is clean already: [Clean] runs over the
    root followed by the name's elements. *)
Lemma outputDir_relative (n : nat) (l : list string) :
  Forall (fun e => plain e = true) l ->
  (dotdots n ++ l)%list <> [] ->
  outputDir (join_sep (dotdots n ++ l)) =
    match n with
    | 0 => join_sep (output_root :: l)
    | S m =>
        match (dotdots m ++ l)%list with
        | [] => "."
        | below => join_sep below
        end
    end.
Proof.
  intros Hall Hne. unfold outputDir.
  rewrite Clean_relative by done.
  destruct (relative_head n l Hall Hne) as (e & rest & Heq & He).
  change (Join [output_root; join_sep (dotdots n ++ l)])
    with (Clean (join_sep [output_root; join_sep (dotdots n ++ l)])).
  replace (join_sep [output_root; join_sep (dotdots n ++ l)])
    with (join_sep (output_root :: dotdots n ++ l))
    by (rewrite Heq; reflexivity).
  rewrite Clean_join_sep; [|done|].
  2:{ constructor; [done|]. by apply relative_no_separator. }
  cbv zeta. rewrite (fold_clean_under output_root n l output_root_plain Hall).
  destruct n as [|m].
  { by destruct (join_sep_head output_root l) as [-> _]. }
  destruct (decide ((dotdots m ++ l)%list = [])) as [->|Hne'].
  - reflexivity.
  - destruct (relative_head m l Hall Hne') as (e' & rest' & Heq' & He').
    rewrite Heq'.
    destruct (join_sep_head e' rest' He') as [-> _]; [|done].
    pose proof (relative_no_separator m l Hall) as Hs.
    rewrite Heq' in Hs. by inversion Hs.
Qed.

Lemma join_sep_snoc (L : list string) (x : string) :
  L <> [] ->
  join_sep (L ++ [x]) = (join_sep L ++ String Separator x)%string.
Proof.
  intros Hne. induction L as [|e L IH]; [done|].
  destruct L as [|e' L]; [reflexivity|].
  change ((e :: e' :: L) ++ [x])%list with (e :: e' :: (L ++ [x]))%list.
  rewrite !join_sep_cons, string_app_assoc, string_app_cons. do 2 f_equal.
  by apply IH.
Qed.

(** The playlist path below a directory that is a relative path of leading
    [..] and plain elements. *)
Lemma Join_index (n : nat) (l : list string) :
  Forall (fun e => plain e = true) l ->
  (dotdots n ++ l)%list <> [] ->
  Join [join_sep (dotdots n ++ l); "index.m3u8"] =
    join_sep (dotdots n ++ l ++ ["index.m3u8"]).
Proof.
  intros Hall Hne.
  destruct (relative_head n l Hall Hne) as (e & rest & Heq & He).
  pose proof (relative_no_separator n l Hall) as Hsep.
  assert (Hd : String.eqb (join_sep (dotdots n ++ l)) "" = false).
  { rewrite Heq in Hsep |- *.
    destruct (join_sep_head e rest He) as [-> _]; [by inversion Hsep|done]. }
  cbn [Join]. rewrite Hd.
  change (join_sep [join_sep (dotdots n ++ l); "index.m3u8"])
    with (join_sep (dotdots n ++ l) ++ String Separator "index.m3u8")%string.
  rewrite <- join_sep_snoc by done. rewrite <- app_assoc.
  apply Clean_relative.
  - apply Forall_app. split; [done|]. by repeat constructor.
  - by destruct n, l.
Qed.

Lemma outputDir_plain (l : list string) :
  Forall (fun e => plain e = true) l ->
  l <> [] ->
  outputDir (join_sep l) = join_sep (output_root :: l).
Proof. intros Hall Hne. exact (outputDir_relative 0 l Hall Hne). Qed.

Lemma m3u8Path_plain (l : list string) :
  Forall (fun e => plain e = true) l ->
  l <> [] ->
  m3u8Path (join_sep l) = join_sep (output_root :: l ++ ["index.m3u8"]).
Proof.
  intros Hall Hne. unfold m3u8Path. rewrite outputDir_plain by done.
  apply (Join_index 0 (output_root :: l)); [|done].
  constructor; [reflexivity|done].
Qed.

(** X1: a publish name made of plain elements (no empty element, no [.],
    no [..]) is used as it is: the directory is the name below "public" and
    lies inside the output root, and the playlist is index.m3u8 in that
    directory. *)
Theorem plain_name_stays_under_root (l : list string) :
  Forall (fun e => plain e = true) l ->
  l <> [] ->
  let name := join_sep l in
  outputDir name = join_sep (output_root :: l) /\
  within output_root (outputDir name) = true /\
  m3u8Path name = join_sep (output_root :: l ++ ["index.m3u8"]).
Proof.
  intros Hall Hne name. subst name.
  split; [by apply outputDir_plain|]. split; [|by apply m3u8Path_plain].
  rewrite outputDir_plain by done.
  destruct Hall as [|e l He _]; [done|].
  destruct e as [|c e]; [done|]. by destruct l.
Qed.

(** X2: a publish name that starts with [..] is not confined.  With [n+1]
    leading [..] before plain elements, the first [..] cancels "public" and
    the directory is the rest of the name, taken from the working
    directory of the server: the working directory itself for the name
    [..], and a path outside the output root as soon as a second [..]
    follows. *)
Theorem dotdot_name_leaves_root (n : nat) (l : list string) :
  Forall (fun e => plain e = true) l ->
  let name := join_sep (dotdots (S n) ++ l) in
  outputDir name =
    match (dotdots n ++ l)%list with
    | [] => "."
    | below => join_sep below
    end /\
  (n <> 0 \/ l = [] -> within output_root (outputDir name) = false).
Proof.
  intros Hall name. subst name.
  pose proof (outputDir_relative (S n) l Hall) as Hdir.
  rewrite Hdir by done. split; [done|].
  intros [Hn| ->].
  - destruct n as [|m]; [done|].
    change (dotdots (S m) ++ l)%list with (".." :: (dotdots m ++ l))%list.
    cbv iota. by destruct (dotdots m ++ l)%list.
  - rewrite app_nil_r. destruct n as [|m]; [reflexivity|].
    change (dotdots (S m)) with (".." :: dotdots m).
    cbv iota. by destruct (dotdots m).
Qed.

End PathElements.

(** ** Every way through [OnPublish] *)

(** Brings a goal about [OnPublish] and the hypotheses about the machine to
    one normal form. *)
Ltac publish_normal :=
  unfold OnPublish, os_MkdirAll, Cmd_StdinPipe, Cmd_Start, flv_NewEncoder,
    log_Printf, publish_started, publish_pipe_made, publish_dir_made,
    publish_logged, logged, started_cmd, built_cmd, outputDir, m3u8Path,
    flv_header,
    bind, get_world, put_world, get_handler, put_handler, ret in *;
  unfold outputDir in *;
  cbv beta zeta in *;
  cbn [handler world set_dirs set_pipes set_procs set_logs
       dirs procs pipes logs] in *.

Ltac publish_step :=
  cbv beta iota;
  cbn [handler world set_dirs set_pipes set_procs set_logs
       dirs procs pipes logs].

Section PublishOutcomes.

Context (flvtag : FlvCodec) (os : OS flvtag).

Abbreviation St' := (State flvtag).

Lemma OnPublish_mkdir_fails (s : St') ts cmd e :
  String.eqb (PublishingName cmd) "" = false ->
  MkdirAll_result flvtag os (world (publish_logged s cmd))
    (outputDir (PublishingName cmd)) 493 = Some e ->
  OnPublish os ts cmd s =
    Returned (Some (errors_Wrap e "Failed to create output dir"))
      (publish_logged s cmd).
Proof.
  intros Hname Hmk. destruct s as [h w]. publish_normal.
  rewrite Hname. publish_step. rewrite Hmk. reflexivity.
Qed.

Lemma OnPublish_stdin_fails (s : St') ts cmd e :
  String.eqb (PublishingName cmd) "" = false ->
  MkdirAll_result flvtag os (world (publish_logged s cmd))
    (outputDir (PublishingName cmd)) 493 = None ->
  StdinPipe_result flvtag os (world (publish_dir_made s cmd))
    (exec_Command "ffmpeg" (ffmpeg_args (m3u8Path (PublishingName cmd)))) = Some e ->
  OnPublish os ts cmd s =
    Returned (Some (errors_Wrap e "Failed to get ffmpeg stdin"))
      (publish_dir_made s cmd).
Proof.
  intros Hname Hmk Hpipe. destruct s as [h w]. publish_normal.
  rewrite Hname. publish_step. rewrite Hmk. publish_step.
  rewrite Hpipe. reflexivity.
Qed.

Lemma OnPublish_start_fails (s : St') ts cmd e :
  String.eqb (PublishingName cmd) "" = false ->
  MkdirAll_result flvtag os (world (publish_logged s cmd))
    (outputDir (PublishingName cmd)) 493 = None ->
  StdinPipe_result flvtag os (world (publish_dir_made s cmd))
    (exec_Command "ffmpeg" (ffmpeg_args (m3u8Path (PublishingName cmd)))) = None ->
  Start_result flvtag os (world (publish_pipe_made s cmd (mkPipe 0 0 [])))
    (built_cmd (PublishingName cmd)) = Some e ->
  OnPublish os ts cmd s =
    Returned (Some (errors_Wrap e "Failed to start ffmpeg"))
      (publish_pipe_made s cmd (mkPipe 1 0 [])).
Proof.
  intros Hname Hmk Hpipe Hstart. destruct s as [h w]. publish_normal.
  rewrite Hname. publish_step. rewrite Hmk. publish_step.
  rewrite Hpipe. publish_step. rewrite Hstart. publish_step.
  rewrite alter_app_r_alt by reflexivity. rewrite Nat.sub_diag.
  reflexivity.
Qed.

Lemma alter_new (A : Type) (f : A -> A) (l : list A) (x : A) :
  alter f (length l) (l ++ [x])%list = (l ++ [f x])%list.
Proof. rewrite alter_app_r_alt by reflexivity. by rewrite Nat.sub_diag. Qed.

Lemma lookup_new (A : Type) (l : list A) (x : A) :
  (l ++ [x])%list !! length l = Some x.
Proof. by apply list_lookup_middle. Qed.

Lemma OnPublish_header_fails (s : St') ts cmd e :
  String.eqb (PublishingName cmd) "" = false ->
  MkdirAll_result flvtag os (world (publish_logged s cmd))
    (outputDir (PublishingName cmd)) 493 = None ->
  StdinPipe_result flvtag os (world (publish_dir_made s cmd))
    (exec_Command "ffmpeg" (ffmpeg_args (m3u8Path (PublishingName cmd)))) = None ->
  Start_result flvtag os (world (publish_pipe_made s cmd (mkPipe 0 0 [])))
    (built_cmd (PublishingName cmd)) = None ->
  Write_result flvtag os (world (publish_started s cmd (mkPipe 0 0 []) 0 false))
    (length (pipes (world s))) flv_header = Some e ->
  OnPublish os ts cmd s =
    Returned (Some (errors_Wrap e "Failed to create FLV encoder"))
      (publish_started s cmd (mkPipe 1 1 []) 1 false).
Proof.
  intros Hname Hmk Hpipe Hstart Hwrite. destruct s as [h w]. publish_normal.
  rewrite Hname. publish_step. rewrite Hmk. publish_step.
  rewrite Hpipe. publish_step. rewrite Hstart. publish_step.
  rewrite (Pipe_Write_at flvtag os _ (length (pipes w)) _ (mkPipe 0 0 []))
    by apply lookup_new.
  publish_step. cbn [pipe_closes Nat.eqb]. rewrite Hwrite. publish_step.
  rewrite alter_new.
  rewrite (WriteCloser_Close_at flvtag os _ (length (pipes w))
             (write_pipe false (ChunkHeader flvtag (Z.lor FlagsAudio FlagsVideo))
                (mkPipe 0 0 [])))
    by apply lookup_new.
  publish_step. rewrite alter_new.
  cbn [Process set_Process].
  rewrite (Process_Kill_at flvtag os _ (length (procs w)) (mkProc _ 0))
    by apply lookup_new.
  publish_step. rewrite alter_new.
  reflexivity.
Qed.

Lemma OnPublish_succeeds (s : St') ts cmd :
  String.eqb (PublishingName cmd) "" = false ->
  MkdirAll_result flvtag os (world (publish_logged s cmd))
    (outputDir (PublishingName cmd)) 493 = None ->
  StdinPipe_result flvtag os (world (publish_dir_made s cmd))
    (exec_Command "ffmpeg" (ffmpeg_args (m3u8Path (PublishingName cmd)))) = None ->
  Start_result flvtag os (world (publish_pipe_made s cmd (mkPipe 0 0 [])))
    (built_cmd (PublishingName cmd)) = None ->
  Write_result flvtag os (world (publish_started s cmd (mkPipe 0 0 []) 0 false))
    (length (pipes (world s))) flv_header = None ->
  OnPublish os ts cmd s =
    Returned None (publish_started s cmd (mkPipe 0 1 [flv_header]) 0 true).
Proof.
  intros Hname Hmk Hpipe Hstart Hwrite. destruct s as [h w]. publish_normal.
  rewrite Hname. publish_step. rewrite Hmk. publish_step.
  rewrite Hpipe. publish_step. rewrite Hstart. publish_step.
  rewrite (Pipe_Write_at flvtag os _ (length (pipes w)) _ (mkPipe 0 0 []))
    by apply lookup_new.
  publish_step. cbn [pipe_closes Nat.eqb]. rewrite Hwrite. publish_step.
  rewrite alter_new.
  reflexivity.
Qed.

(** The six ways through [OnPublish]. *)
Lemma OnPublish_cases (s : St') ts cmd :
  let r := OnPublish os ts cmd s in
  (PublishingName cmd = "" /\
   r = Returned (Some (errors_New "PublishingName is empty")) (publish_logged s cmd)) \/
  (PublishingName cmd <> "" /\ exists e,
   r = Returned (Some (errors_Wrap e "Failed to create output dir"))
         (publish_logged s cmd)) \/
  (PublishingName cmd <> "" /\ exists e,
   r = Returned (Some (errors_Wrap e "Failed to get ffmpeg stdin"))
         (publish_dir_made s cmd)) \/
  (PublishingName cmd <> "" /\ exists e,
   r = Returned (Some (errors_Wrap e "Failed to start ffmpeg"))
         (publish_pipe_made s cmd (mkPipe 1 0 []))) \/
  (PublishingName cmd <> "" /\ exists e,
   r = Returned (Some (errors_Wrap e "Failed to create FLV encoder"))
         (publish_started s cmd (mkPipe 1 1 []) 1 false)) \/
  (PublishingName cmd <> "" /\
   r = Returned None (publish_started s cmd (mkPipe 0 1 [flv_header]) 0 true)).
Proof.
  intros r. subst r.
  destruct (String.eqb_spec (PublishingName cmd) "") as [Hname|Hname].
  { left. split; [done|].
    destruct cmd as [name ptype]. simpl in Hname. subst name.
    reflexivity. }
  right. apply String.eqb_neq in Hname as Hname'.
  destruct (MkdirAll_result flvtag os (world (publish_logged s cmd))
              (outputDir (PublishingName cmd)) 493) as [e|] eqn:Hmk.
  { left. split; [done|]. exists e. by apply OnPublish_mkdir_fails. }
  right.
  destruct (StdinPipe_result flvtag os (world (publish_dir_made s cmd))
              (exec_Command "ffmpeg"
                 (ffmpeg_args (m3u8Path (PublishingName cmd))))) as [e|] eqn:Hpipe.
  { left. split; [done|]. exists e. by apply OnPublish_stdin_fails. }
  right.
  destruct (Start_result flvtag os
              (world (publish_pipe_made s cmd (mkPipe 0 0 [])))
              (built_cmd (PublishingName cmd))) as [e|] eqn:Hstart.
  { left. split; [done|]. exists e. by apply OnPublish_start_fails. }
  right.
  destruct (Write_result flvtag os
              (world (publish_started s cmd (mkPipe 0 0 []) 0 false))
              (length (pipes (world s))) flv_header) as [e|] eqn:Hwrite.
  { left. split; [done|]. exists e. by apply OnPublish_header_fails. }
  right. split; [done|]. by apply OnPublish_succeeds.
Qed.

(** X3: [OnPublish] never panics.  The only dereference in it that could,
    [ffmpegCmd.Process.Kill()] on the failure of the encoder, comes after a
    [Start] that succeeded and set [Process]. *)
Theorem OnPublish_never_panics (s : St') (ts : Z) (cmd : NetStreamPublish) :
  panicked (OnPublish os ts cmd s) = false.
Proof.
  destruct (OnPublish_cases s ts cmd)
    as [[_ ->]|[[_ [e ->]]|[[_ [e ->]]|[[_ [e ->]]|[[_ [e ->]]|[_ ->]]]]]];
    reflexivity.
Qed.


(** X5: what a publish that returns an error leaves behind.  The error is
    one of the three kinds and [flvEnc] is left as it was.  The pipe and
    the process the call itself created are closed and killed again (by
    os/exec when [Start] fails, by [OnPublish] when the encoder fails), so
    the open pipes and the live processes of the machine are those of
    before, and no pipe or process that existed before is changed.  The
    handler is unchanged, unless it was the encoder that failed: then
    [ffmpegCmd] and [ffmpegIn] have been assigned and name the killed
    process and the closed pipe; a process and a pipe that these two
    fields named before stay as they were, live and open if they were, and
    the two fields no longer name them. *)
Theorem failed_publish_releases_what_it_made
    (s s' : St') (ts : Z) (cmd : NetStreamPublish) (e : error) :
  OnPublish os ts cmd s = Returned (Some e) s' ->
  let p := length (pipes (world s)) in
  let pid := length (procs (world s)) in
  is_Some (error_kind e) /\
  flvEnc (handler s') = flvEnc (handler s) /\
  handler s' =
    (if encoder_failed e
     then {| ffmpegCmd := Some (started_cmd (PublishingName cmd) pid);
             ffmpegIn := Some p;
             flvEnc := flvEnc (handler s) |}
     else handler s) /\
  (encoder_failed e = true ->
     closes_of (world s') p = 1 /\
     kills_of (world s') pid = 1) /\
  live_procs (world s') = live_procs (world s) /\
  open_pipes (world s') = open_pipes (world s) /\
  (forall q pp, pipes (world s) !! q = Some pp -> pipes (world s') !! q = Some pp) /\
  (forall q pr, procs (world s) !! q = Some pr -> procs (world s') !! q = Some pr).
Proof.
  intros H p pid.
  destruct (OnPublish_cases s ts cmd)
    as [[_ Hr]|[[_ [e' Hr]]|[[_ [e' Hr]]|[[_ [e' Hr]]|[[_ [e' Hr]]|[_ Hr]]]]]];
    cbv zeta in Hr; rewrite Hr in H; inversion H; subst; clear H Hr.
  - split_and!; by eauto.
  - split_and!; by eauto.
  - split_and!; by eauto.
  - split_and!; try by eauto.
    + unfold open_pipes. simpl. rewrite filter_app. simpl.
      by rewrite app_nil_r.
    + intros q pp Hq. simpl. rewrite lookup_app_l; [done|].
      by apply lookup_lt_Some in Hq.
  - split_and!; try by eauto.
    + intros _. unfold closes_of, kills_of. simpl.
      subst p pid. by rewrite !lookup_new.
    + unfold live_procs. simpl. rewrite filter_app. simpl.
      by rewrite app_nil_r.
    + unfold open_pipes. simpl. rewrite filter_app. simpl.
      by rewrite app_nil_r.
    + intros q pp Hq. simpl. rewrite lookup_app_l; [done|].
      by apply lookup_lt_Some in Hq.
    + intros q pr Hq. simpl. rewrite lookup_app_l; [done|].
      by apply lookup_lt_Some in Hq.
Qed.

(** X6: the kind of the error tells which step of the publish failed.
    InvalidRequest is returned exactly for the empty name, and the call
    has then written its log line and done nothing else.  PathError is
    returned exactly when the name is not empty and the call of
    [os.MkdirAll] on the derived directory with mode 0755 returns an
    error; that error is the cause wrapped in the one returned, and no
    step after the call has run: the handler, the pipes and the processes
    are as before.  What the failed [MkdirAll] left on the file system is
    not stated.  StartupError tells that the call of [MkdirAll] returned
    nil; nothing is removed afterwards. *)
Theorem publish_error_tells_failed_step (s : St') (ts : Z) (cmd : NetStreamPublish) :
  let r := OnPublish os ts cmd s in
  let name := PublishingName cmd in
  let mkdir :=
    MkdirAll_result flvtag os (world (publish_logged s cmd)) (outputDir name) 493 in
  (failure_kind r = Some InvalidRequest <-> name = "") /\
  (failure_kind r = Some InvalidRequest -> final_state r = publish_logged s cmd) /\
  (failure_kind r = Some PathError <-> name <> "" /\ is_Some mkdir) /\
  (failure_kind r = Some PathError ->
     (exists cause,
        mkdir = Some cause /\
        returned r = Some (Some (errors_Wrap cause "Failed to create output dir"))) /\
     handler (final_state r) = handler s /\
     pipes (world (final_state r)) = pipes (world s) /\
     procs (world (final_state r)) = procs (world s) /\
     logs (world (final_state r)) = logs (world (publish_logged s cmd))) /\
  (failure_kind r = Some StartupError ->
     name <> "" /\
     mkdir = None /\
     dirs (world (final_state r)) =
       (dirs (world s) ++ [(outputDir name, 493%Z)])%list).
Proof.
  intros r name mkdir. subst r name mkdir.
  destruct (String.eqb_spec (PublishingName cmd) "") as [Hname|Hname].
  { destruct cmd as [name ptype]. simpl in Hname. subst name.
    change (OnPublish os ts (mkPublish "" ptype) s)
      with (Returned (S:=St') (Some (errors_New "PublishingName is empty"))
              (publish_logged s (mkPublish "" ptype))).
    simpl. split_and!; try done.
    split; [done|]. by intros [? _]. }
  apply String.eqb_neq in Hname as Hname'.
  destruct (MkdirAll_result flvtag os (world (publish_logged s cmd))
              (outputDir (PublishingName cmd)) 493) as [e|] eqn:Hmk.
  { rewrite (OnPublish_mkdir_fails s ts cmd e Hname' Hmk). simpl.
    split_and!; try done.
    intros _. split_and!; try done. by exists e. }
  assert (Hnone : ~ is_Some (@None error)) by (by intros [? ?]).
  destruct (StdinPipe_result flvtag os (world (publish_dir_made s cmd))
              (exec_Command "ffmpeg"
                 (ffmpeg_args (m3u8Path (PublishingName cmd))))) as [e|] eqn:Hpipe.
  { rewrite (OnPublish_stdin_fails s ts cmd e Hname' Hmk Hpipe). simpl.
    split_and!; try done. split; [done|]. by intros [_ ?]. }
  destruct (Start_result flvtag os
              (world (publish_pipe_made s cmd (mkPipe 0 0 [])))
              (built_cmd (PublishingName cmd))) as [e|] eqn:Hstart.
  { rewrite (OnPublish_start_fails s ts cmd e Hname' Hmk Hpipe Hstart). simpl.
    split_and!; try done. split; [done|]. by intros [_ ?]. }
  destruct (Write_result flvtag os
              (world (publish_started s cmd (mkPipe 0 0 []) 0 false))
              (length (pipes (world s))) flv_header) as [e|] eqn:Hwrite.
  { rewrite (OnPublish_header_fails s ts cmd e Hname' Hmk Hpipe Hstart Hwrite).
    simpl. split_and!; try done. split; [done|]. by intros [_ ?]. }
  rewrite (OnPublish_succeeds s ts cmd Hname' Hmk Hpipe Hstart Hwrite). simpl.
  split_and!; try done. split; [done|]. by intros [_ ?].
Qed.

End PublishOutcomes.

(** ** What frames and closes leave alone *)

Section Runs.

Context (flvtag : FlvCodec) (os : OS flvtag).

Abbreviation Sr := (State flvtag).

Lemma only_wrote_refl (s : Sr) : only_wrote s s.
Proof.
  repeat split; try done. intros q. exists []. by rewrite app_nil_r.
Qed.

Lemma only_wrote_with_logs (s : Sr) (l : list LogEntry) :
  only_wrote s (with_logs s l).
Proof. exact (only_wrote_refl s). Qed.

Lemma only_wrote_logged (s s' : Sr) format args :
  only_wrote s s' -> only_wrote s (logged s' format args).
Proof. intros H. exact H. Qed.

Lemma Pipe_Write_only_wrote (s : Sr) (e : Encoder) (c : Chunk flvtag) :
  flvEnc (handler s) = Some e ->
  exists err s',
    Pipe_Write os (enc_w e) c s = Returned err s' /\ only_wrote s s'.
Proof.
  intros Henc. destruct (pipes (world s) !! enc_w e) as [pp|] eqn:Hpp.
  - eexists _, _. split; [by apply (Pipe_Write_at flvtag os s (enc_w e) c pp)|].
    set (ok := bool_decide _). clearbody ok.
    unfold only_wrote, closes_of, data_of. cbn [handler world pipes set_pipes dirs procs].
    repeat split; try done.
    + by rewrite length_alter.
    + intros q. destruct (decide (enc_w e = q)) as [<-|Hq].
      * by rewrite list_lookup_alter_eq, Hpp.
      * by rewrite list_lookup_alter_ne.
    + intros q. destruct (decide (enc_w e = q)) as [<-|Hq].
      * rewrite list_lookup_alter_eq, Hpp. simpl.
        destruct ok; [by eexists|]. exists []. by rewrite app_nil_r.
      * rewrite list_lookup_alter_ne by done. exists []. by rewrite app_nil_r.
    + intros q Hq. apply list_lookup_alter_ne. intros <-.
      apply Hq. rewrite Henc. by destruct e.
  - exists (Some ErrInvalid), s. split; [|apply only_wrote_refl].
    unfold Pipe_Write, bind, get_world. cbv beta iota. by rewrite Hpp.
Qed.

(** [Encode]: a panic on the nil encoder, with the state as it was;
    otherwise a return after at most a write on the encoder's pipe. *)
Lemma Encoder_Encode_only_wrote (s : Sr) (t : FlvTag flvtag) :
  match Encoder_Encode os (flvEnc (handler s)) t s with
  | Returned _ s' => flvEnc (handler s) <> None /\ only_wrote s s'
  | Panicked msg s' => flvEnc (handler s) = None /\ msg = nil_dereference /\ s' = s
  end.
Proof.
  destruct (flvEnc (handler s)) as [e|] eqn:Henc; [|done].
  destruct (Pipe_Write_only_wrote s e (ChunkTag flvtag t) Henc)
    as (err & s' & Hw & Hs').
  simpl. by rewrite Hw.
Qed.

(** A frame call: a panic on the nil encoder, with the state as it was;
    otherwise a return after at most a log line and a write on the
    encoder's pipe. *)
Lemma frame_call_outcome (s : Sr) (c : Call) :
  is_frame c = true ->
  match call os c s with
  | Returned _ s' => only_wrote s s'
  | Panicked msg s' => flvEnc (handler s) = None /\ msg = nil_dereference /\ s' = s
  end.
Proof.
  destruct c as [| ts payload | ts payload | ts payload |]; try done; intros _; simpl.
  - destruct (DecodeScriptData flvtag (bytes_NewReader payload)) as [e|script] eqn:Hdec.
    + rewrite (OnSetDataFrame_malformed flvtag os s ts payload e Hdec).
      apply only_wrote_with_logs.
    + rewrite (OnSetDataFrame_decoded flvtag os s ts payload script Hdec).
      pose proof (Encoder_Encode_only_wrote s (script_tag ts script)) as H.
      destruct (Encoder_Encode _ _ _ s) as [[e|] s'|msg s']; [by destruct H..|done].
  - destruct (DecodeAudioData flvtag payload) as [e|[hd body]] eqn:Hdec.
    { unfold OnAudio. rewrite Hdec. apply only_wrote_refl. }
    destruct (io_Copy body) as [e|buf] eqn:Hcopy.
    { unfold OnAudio. rewrite Hdec, Hcopy. apply only_wrote_refl. }
    rewrite (OnAudio_decoded flvtag os s ts payload hd body buf Hdec Hcopy).
    pose proof (Encoder_Encode_only_wrote s (audio_tag ts hd buf)) as H.
    destruct (Encoder_Encode _ _ _ s) as [[e|] s'|msg s']; [by destruct H..|done].
  - destruct (DecodeVideoData flvtag payload) as [e|[hd body]] eqn:Hdec.
    { unfold OnVideo. rewrite Hdec. apply only_wrote_refl. }
    destruct (io_Copy body) as [e|buf] eqn:Hcopy.
    { unfold OnVideo. rewrite Hdec, Hcopy. apply only_wrote_refl. }
    rewrite (OnVideo_decoded flvtag os s ts payload hd body buf Hdec Hcopy).
    pose proof (Encoder_Encode_only_wrote s (video_tag ts hd buf)) as H.
    destruct (Encoder_Encode _ _ _ s) as [[e|] s'|msg s']; [by destruct H..|done].
Qed.

Lemma close_keeps_writes (l : list (Pipe flvtag)) (p q : PipeId) :
  default 0 (pipe_writes <$> alter close_pipe p l !! q) =
  default 0 (pipe_writes <$> l !! q).
Proof.
  rewrite list_lookup_alter. case_decide; [subst|done].
  by destruct (l !! q).
Qed.

Lemma close_keeps_data (l : list (Pipe flvtag)) (p q : PipeId) :
  default [] (pipe_data <$> alter close_pipe p l !! q) =
  default [] (pipe_data <$> l !! q).
Proof.
  rewrite list_lookup_alter. case_decide; [subst|done].
  by destruct (l !! q).
Qed.

(** [OnClose]: a panic when the handler holds an encoder and no pipe;
    otherwise a return after at most a [Close] on the handler's pipe and a
    [Kill] on the handler's process. *)
Lemma OnClose_outcome (s : Sr) :
  match OnClose os s with
  | Returned _ s' => encoder_has_pipe (handler s) /\ only_released s s'
  | Panicked msg s' =>
      flvEnc (handler s) <> None /\ ffmpegIn (handler s) = None /\
      msg = nil_dereference
  end.
Proof.
  destruct s as [h w].
  unfold OnClose, log_Println, log_Printf, WriteCloser_Close, Process_Kill,
    bind, ret, panic, get_handler, get_world, put_world, encoder_has_pipe,
    only_released, writes_of, data_of.
  cbn [handler world pipes procs dirs logs set_logs set_pipes set_procs].
  repeat (case_match;
          cbn [handler world pipes procs dirs logs set_logs set_pipes set_procs] in *;
          simplify_eq).
  all: cbn [handler world pipes procs dirs logs set_logs set_pipes set_procs] in *.
  all: rewrite ?length_alter.
  all: try done.
  all: split; [done|]; repeat split; try done.
  all: try apply close_keeps_writes.
  all: try apply close_keeps_data.
  all: try (intros q Hq; apply list_lookup_alter_ne; congruence).
  all: try (intros q Hq; apply list_lookup_alter_ne; intros <-; by eapply Hq).
Qed.

Lemma only_wrote_trans (s1 s2 s3 : Sr) :
  only_wrote s1 s2 -> only_wrote s2 s3 -> only_wrote s1 s3.
Proof.
  intros (Hh & Hd & Hp & Hl & Hc & Hdata & Ho) (Hh' & Hd' & Hp' & Hl' & Hc' & Hdata' & Ho').
  unfold only_wrote. split_and!; try congruence.
  - intros q. destruct (Hdata q) as [m1 H1], (Hdata' q) as [m2 H2].
    exists (m1 ++ m2)%list. by rewrite H2, H1, app_assoc.
  - intros q Hq. rewrite Ho'; [by apply Ho|]. by rewrite Hh.
Qed.

(** A frame call either hands nothing to the encoder and returns after at
    most a log line, or hands it one tag and does what [Encode] does. *)
Lemma frame_call_by_forwarded (s : Sr) (c : Call) :
  is_frame c = true ->
  match forwarded flvtag c with
  | [] => exists r l, call os c s = Returned r (with_logs s l)
  | ch :: _ =>
      exists t format,
        forwarded flvtag c = [ChunkTag flvtag t] /\
        call os c s =
          match Encoder_Encode os (flvEnc (handler s)) t s with
          | Returned (Some e) s' => Returned None (logged s' format [ArgError e])
          | Returned None s' => Returned None s'
          | Panicked msg s' => Panicked msg s'
          end
  end.
Proof.
  destruct c as [| ts payload | ts payload | ts payload |]; try done; intros _; simpl.
  - destruct (DecodeScriptData flvtag (bytes_NewReader payload)) as [e|script] eqn:Hdec.
    + eexists _, _. by eapply OnSetDataFrame_malformed.
    + eexists _, _. split; [done|]. by eapply OnSetDataFrame_decoded.
  - destruct (DecodeAudioData flvtag payload) as [e|[hd body]] eqn:Hdec.
    { exists (Some e), []. unfold OnAudio. by rewrite Hdec, with_logs_nil. }
    destruct (io_Copy body) as [e|buf] eqn:Hcopy.
    { exists (Some e), []. unfold OnAudio. by rewrite Hdec, Hcopy, with_logs_nil. }
    eexists _, _. split; [done|]. by eapply OnAudio_decoded.
  - destruct (DecodeVideoData flvtag payload) as [e|[hd body]] eqn:Hdec.
    { exists (Some e), []. unfold OnVideo. by rewrite Hdec, with_logs_nil. }
    destruct (io_Copy body) as [e|buf] eqn:Hcopy.
    { exists (Some e), []. unfold OnVideo. by rewrite Hdec, Hcopy, with_logs_nil. }
    eexists _, _. split; [done|]. by eapply OnVideo_decoded.
Qed.

(** X7: a frame callback leaves the session alone.  Whatever the payload
    and whatever the outcome, [OnSetDataFrame], [OnAudio] and [OnVideo]
    never assign to the handler, never make a directory, start or kill a
    process, open or close a pipe, and never touch a pipe other than the
    one of the handler's encoder, to which they can only append.  They
    panic exactly when the encoder is nil and the payload decodes. *)
Theorem frame_leaves_session_alone (s : Sr) (c : Call) :
  is_frame c = true ->
  only_wrote s (final_state (call os c s)) /\
  (panicked (call os c s) = true <->
     flvEnc (handler s) = None /\ forwarded flvtag c <> []).
Proof.
  intros Hc. pose proof (frame_call_outcome s c Hc) as Hout.
  pose proof (frame_call_by_forwarded s c Hc) as Hfw.
  split.
  - destruct (call os c s) as [r s'|msg s']; simpl; [done|].
    destruct Hout as (_ & _ & ->). apply only_wrote_refl.
  - destruct (forwarded flvtag c) as [|ch rest].
    + destruct Hfw as (r & l & ->). simpl. split; [done|]. by intros [_ ?].
    + destruct Hfw as (t & format & _ & Hcall). rewrite Hcall in Hout |- *.
      destruct (flvEnc (handler s)) as [e|] eqn:Henc.
      * destruct (Pipe_Write_only_wrote s e (ChunkTag flvtag t) Henc)
          as (err & s' & Hw & _).
        simpl. rewrite Hw. destruct err; simpl; (split; [done|by intros [? _]]).
      * simpl. by split.
Qed.

(** One frame on an open pipe that takes every write. *)
Lemma frame_forwarded (s : Sr) (p : PipeId) (pp : Pipe flvtag) (c : Call) :
  flvEnc (handler s) = Some (mkEncoder p) ->
  pipes (world s) !! p = Some pp ->
  pipe_closes pp = 0 ->
  (forall w ch, Write_result flvtag os w p ch = None) ->
  is_frame c = true ->
  exists r s',
    call os c s = Returned r s' /\
    only_wrote s s' /\
    pipes (world s') !! p =
      Some (mkPipe 0 (pipe_writes pp + length (forwarded flvtag c))
              (pipe_data pp ++ forwarded flvtag c)).
Proof.
  intros Henc Hpp Hopen Hwrite Hc.
  pose proof (frame_call_outcome s c Hc) as Hout.
  pose proof (frame_call_by_forwarded s c Hc) as Hfw.
  destruct (forwarded flvtag c) as [|ch rest].
  - destruct Hfw as (r & l & Hcall). rewrite Hcall in Hout |- *.
    exists r, (with_logs s l). split; [done|]. split; [done|].
    simpl. rewrite Hpp, Nat.add_0_r, app_nil_r. by destruct pp; simplify_eq/=.
  - destruct Hfw as (t & format & [= -> ->] & Hcall).
    assert (Hencode :
      Encoder_Encode os (flvEnc (handler s)) t s =
        Returned None
          (mkState (handler s)
             (set_pipes (world s)
                (alter (write_pipe true (ChunkTag flvtag t)) p (pipes (world s)))))).
    { rewrite Henc. unfold Encoder_Encode. cbn [enc_w].
      rewrite (Pipe_Write_at flvtag os s p (ChunkTag flvtag t) pp Hpp).
      cbv zeta. rewrite Hopen. cbn [Nat.eqb]. by rewrite Hwrite. }
    rewrite Hcall, Hencode in Hout |- *.
    eexists _, _. split; [done|]. split; [done|].
    cbn [world pipes set_pipes].
    rewrite list_lookup_alter_eq, Hpp.
    destruct pp as [cl wr da]. cbn in Hopen |- *. subst cl.
    unfold write_pipe. cbn. do 2 f_equal. lia.
Qed.

(** A run of frames on an open pipe that takes every write. *)
Lemma frames_run_forwarded
    (cs : list Call) (s : Sr) (p : PipeId) (pp : Pipe flvtag) :
  flvEnc (handler s) = Some (mkEncoder p) ->
  pipes (world s) !! p = Some pp ->
  pipe_closes pp = 0 ->
  (forall w ch, Write_result flvtag os w p ch = None) ->
  Forall (fun c => is_frame c = true) cs ->
  exists rs s',
    calls os cs s = Returned rs s' /\
    length rs = length cs /\
    only_wrote s s' /\
    pipes (world s') !! p =
      Some (mkPipe 0 (pipe_writes pp + length (flat_map (forwarded flvtag) cs))
              (pipe_data pp ++ flat_map (forwarded flvtag) cs)).
Proof.
  intros Henc Hpp Hopen Hwrite Hall. revert s pp Henc Hpp Hopen.
  induction Hall as [|c cs Hc _ IH]; intros s pp Henc Hpp Hopen.
  - exists [], s. split; [done|]. split; [done|]. split; [apply only_wrote_refl|].
    simpl. rewrite Hpp, Nat.add_0_r, app_nil_r. by destruct pp; simplify_eq/=.
  - destruct (frame_forwarded s p pp c Henc Hpp Hopen Hwrite Hc)
      as (r & s1 & Hcall & Hs1 & Hp1).
    destruct (IH s1 _ (eq_trans (f_equal flvEnc (proj1 Hs1)) Henc) Hp1 eq_refl)
      as (rs & s2 & Hcalls & Hlen & Hs2 & Hp2).
    exists (r :: rs), s2. simpl. unfold bind at 1. rewrite Hcall.
    unfold bind at 1. rewrite Hcalls. unfold ret.
    split; [done|]. split; [by rewrite Hlen|].
    split; [by eapply only_wrote_trans|].
    rewrite Hp2. simpl. rewrite length_app, <- app_assoc. do 2 f_equal. lia.
Qed.

(** X8: frames reach the pipe in the order of the calls.  On a handler
    whose encoder writes to an open pipe that takes every write, a run of
    frame calls returns from every call, and what the pipe received is what
    it held before followed by one tag for every payload that decoded, in
    call order, each with the timestamp and the full body of its frame;
    payloads that did not decode leave no trace in the pipe. *)
Theorem frames_forwarded_in_order
    (cs : list Call) (s : Sr) (p : PipeId) (pp : Pipe flvtag) :
  flvEnc (handler s) = Some (mkEncoder p) ->
  pipes (world s) !! p = Some pp ->
  pipe_closes pp = 0 ->
  (forall w ch, Write_result flvtag os w p ch = None) ->
  Forall (fun c => is_frame c = true) cs ->
  exists rs s',
    calls os cs s = Returned rs s' /\
    length rs = length cs /\
    handler s' = handler s /\
    data_of (world s') p = (data_of (world s) p ++ flat_map (forwarded flvtag) cs)%list /\
    writes_of (world s') p =
      writes_of (world s) p + length (flat_map (forwarded flvtag) cs) /\
    closes_of (world s') p = 0.
Proof.
  intros Henc Hpp Hopen Hwrite Hall.
  destruct (frames_run_forwarded cs s p pp Henc Hpp Hopen Hwrite Hall)
    as (rs & s' & Hrun & Hlen & (Hh & _) & Hp').
  exists rs, s'. unfold data_of, writes_of, closes_of.
  rewrite Hp', Hpp. by simpl.
Qed.


(** *** What every run from a new handler keeps *)

Lemma final_state_calls_cons (c : Call) (cs : list Call) (s : Sr) :
  final_state (calls os (c :: cs) s) =
    match call os c s with
    | Returned _ s1 => final_state (calls os cs s1)
    | Panicked _ s1 => s1
    end.
Proof.
  simpl. unfold bind at 1. destruct (call os c s) as [r s1|msg s1]; [|done].
  unfold bind. by destruct (calls os cs s1).
Qed.

(** A call panics only on the nil encoder, and then leaves the state as it
    was. *)
Lemma call_panic (s s' : Sr) (c : Call) (msg : string) :
  encoder_has_pipe (handler s) ->
  call os c s = Panicked msg s' ->
  msg = nil_dereference /\ s' = s /\ flvEnc (handler s) = None.
Proof.
  intros Hinv Hcall. destruct c as [ts cmd| ts payload | ts payload | ts payload |].
  - simpl in Hcall.
    destruct (OnPublish_cases flvtag os s ts cmd)
      as [[_ Hr]|[[_ [e Hr]]|[[_ [e Hr]]|[[_ [e Hr]]|[[_ [e Hr]]|[_ Hr]]]]]];
      cbv zeta in Hr; by rewrite Hr in Hcall.
  - pose proof (frame_call_outcome s (CallSetDataFrame ts payload) eq_refl) as H.
    rewrite Hcall in H. by destruct H as (? & ? & ?).
  - pose proof (frame_call_outcome s (CallAudio ts payload) eq_refl) as H.
    rewrite Hcall in H. by destruct H as (? & ? & ?).
  - pose proof (frame_call_outcome s (CallVideo ts payload) eq_refl) as H.
    rewrite Hcall in H. by destruct H as (? & ? & ?).
  - pose proof (OnClose_outcome s) as H. simpl in Hcall. unfold bind in Hcall.
    destruct (OnClose os s) as [u s1|m s1]; [done|].
    destruct H as (Henc & Hin & _). by destruct (Hinv Henc).
Qed.

(** No call clears [flvEnc], and none leaves an encoder without a pipe. *)
Lemma call_keeps_handler_shape (s : Sr) (c : Call) :
  encoder_has_pipe (handler s) ->
  encoder_has_pipe (handler (final_state (call os c s))) /\
  (flvEnc (handler s) <> None ->
     flvEnc (handler (final_state (call os c s))) <> None).
Proof.
  intros Hinv. destruct c as [ts cmd| ts payload | ts payload | ts payload |].
  - simpl.
    destruct (OnPublish_cases flvtag os s ts cmd)
      as [[_ Hr]|[[_ [e Hr]]|[[_ [e Hr]]|[[_ [e Hr]]|[[_ [e Hr]]|[_ Hr]]]]]];
      cbv zeta in Hr; rewrite Hr; by simpl.
  - pose proof (frame_call_outcome s (CallSetDataFrame ts payload) eq_refl) as H.
    destruct (call os _ s) as [r s1|m s1]; simpl.
    + destruct H as (-> & _). done.
    + destruct H as (_ & _ & ->). done.
  - pose proof (frame_call_outcome s (CallAudio ts payload) eq_refl) as H.
    destruct (call os _ s) as [r s1|m s1]; simpl.
    + destruct H as (-> & _). done.
    + destruct H as (_ & _ & ->). done.
  - pose proof (frame_call_outcome s (CallVideo ts payload) eq_refl) as H.
    destruct (call os _ s) as [r s1|m s1]; simpl.
    + destruct H as (-> & _). done.
    + destruct H as (_ & _ & ->). done.
  - pose proof (OnClose_outcome s) as H. simpl. unfold bind.
    destruct (OnClose os s) as [u s1|m s1]; simpl.
    + destruct H as (_ & -> & _). done.
    + destruct H as (Henc & Hin & _). by destruct (Hinv Henc).
Qed.

Lemma calls_keep_handler_shape (cs : list Call) (s : Sr) :
  encoder_has_pipe (handler s) ->
  encoder_has_pipe (handler (final_state (calls os cs s))) /\
  (flvEnc (handler s) <> None ->
     flvEnc (handler (final_state (calls os cs s))) <> None).
Proof.
  revert s. induction cs as [|c cs IH]; intros s Hinv; [done|].
  rewrite final_state_calls_cons.
  destruct (call_keeps_handler_shape s c Hinv) as [Hinv1 Hmono1].
  destruct (call os c s) as [r s1|msg s1]; simpl in Hinv1, Hmono1; [|done].
  destruct (IH s1 Hinv1) as [Hinv2 Hmono2]. split; [done|]. auto.
Qed.

Lemma calls_panic (cs : list Call) (s s' : Sr) (msg : string) :
  encoder_has_pipe (handler s) ->
  calls os cs s = Panicked msg s' ->
  msg = nil_dereference /\ flvEnc (handler s') = None /\
  flvEnc (handler s) = None.
Proof.
  revert s. induction cs as [|c cs IH]; intros s Hinv Hrun; [done|].
  simpl in Hrun. unfold bind at 1 in Hrun.
  destruct (call_keeps_handler_shape s c Hinv) as [Hinv1 Hmono1].
  destruct (call os c s) as [r s1|m s1] eqn:Hcall; simpl in Hinv1, Hmono1.
  - unfold bind in Hrun.
    destruct (calls os cs s1) as [rs s2|m s2] eqn:Hrest; [done|].
    injection Hrun as -> ->.
    destruct (IH s1 Hinv1 Hrest) as (Hm & Hs' & Hs1).
    split; [done|]. split; [done|].
    destruct (flvEnc (handler s)); [|done]. by destruct Hmono1.
  - injection Hrun as -> ->.
    destruct (call_panic s s' c msg Hinv Hcall) as (Hm & -> & Hs).
    done.
Qed.

Lemma new_handler_shape : encoder_has_pipe new_Handler.
Proof. by intros H. Qed.

(** X9: the only panic a handler can run into is a frame before the first
    completed publish.  In a run of calls on a new handler, a panic is the
    nil dereference of a frame callback, on a handler that has not completed
    a publish; once a publish has completed, no later call panics, whatever
    is called and in whatever order. *)
Theorem panic_only_before_publish
    (w : World flvtag) (pre cs : list Call) :
  let s := final_state (calls os pre (mkState new_Handler w)) in
  (flvEnc (handler s) <> None -> panicked (calls os cs s) = false) /\
  (forall msg s',
     calls os cs s = Panicked msg s' ->
     msg = nil_dereference /\ flvEnc (handler s') = None).
Proof.
  intros s.
  destruct (calls_keep_handler_shape pre (mkState new_Handler w) new_handler_shape)
    as [Hinv _]. fold s in Hinv.
  split.
  - intros Henc. destruct (calls os cs s) as [rs s'|msg s'] eqn:Hrun; [done|].
    by destruct (calls_panic cs s s' msg Hinv Hrun) as (_ & _ & ?).
  - intros msg s' Hrun.
    by destruct (calls_panic cs s s' msg Hinv Hrun) as (? & ? & _).
Qed.

(** X10: [OnClose] releases only what the handler holds.  After any run of
    calls on a new handler, [OnClose] returns; it does not assign to the
    handler, makes no directory, pipe or process, writes to no pipe, and
    leaves every pipe but the handler's and every process but the
    handler's as they were; on a handler without encoder it closes no pipe,
    and on a handler without command it kills no process. *)
Theorem OnClose_releases_only_its_own (w : World flvtag) (pre : list Call) :
  let s := final_state (calls os pre (mkState new_Handler w)) in
  exists s', OnClose os s = Returned tt s' /\ only_released s s'.
Proof.
  intros s.
  destruct (calls_keep_handler_shape pre (mkState new_Handler w) new_handler_shape)
    as [Hinv _]. fold s in Hinv.
  pose proof (OnClose_outcome s) as H.
  destruct (OnClose os s) as [[] s'|msg s'].
  - exists s'. by destruct H.
  - destruct H as (Henc & Hin & _). by destruct (Hinv Henc).
Qed.

(** *** A whole session *)

Lemma calls_app (cs1 cs2 : list Call) (s s1 s2 : Sr) rs1 rs2 :
  calls os cs1 s = Returned rs1 s1 ->
  calls os cs2 s1 = Returned rs2 s2 ->
  calls os (cs1 ++ cs2) s = Returned (rs1 ++ rs2)%list s2.
Proof.
  revert s rs1. induction cs1 as [|c cs1 IH]; intros s rs1 H1 H2.
  - by injection H1 as <- <-.
  - simpl in H1 |- *. unfold bind at 1 in H1. unfold bind at 1.
    destruct (call os c s) as [r s0|m s0]; [|done].
    unfold bind at 1 in H1. unfold bind at 1.
    destruct (calls os cs1 s0) as [rs s0'|m s0'] eqn:Hrest; [|done].
    injection H1 as <- <-. by rewrite (IH s0 rs Hrest H2).
Qed.

(** X11: a whole session on a machine where nothing fails.  A publish of a
    non-empty name on a new handler, then any run of frames, then the
    close: every call returns.  [os.MkdirAll] has been called once, on the
    derived directory with mode 0755, and returned nil.  One process has
    been started, the ffmpeg command of the publish, and [Kill] was called
    on it once.  One pipe has been opened: it was handed the FLV header and
    after it the tags of the frames that decoded, in call order, and
    [Close] was called on it once.  No pipe or process that existed before
    was touched. *)
Theorem whole_session_effect
    (w : World flvtag) (ts : Z) (cmd : NetStreamPublish) (frames : list Call) :
  healthy os ->
  PublishingName cmd <> "" ->
  Forall (fun c => is_frame c = true) frames ->
  let name := PublishingName cmd in
  let sent := flat_map (forwarded flvtag) frames in
  exists rs s',
    calls os (CallPublish ts cmd :: frames ++ [CallClose]) (mkState new_Handler w) =
      Returned rs s' /\
    dirs (world s') = (dirs w ++ [(outputDir name, 493%Z)])%list /\
    procs (world s') =
      (procs w ++ [mkProc (started_cmd name (length (procs w))) 1])%list /\
    exists pp,
      pipes (world s') = (pipes w ++ [pp])%list /\
      pipe_closes pp = 1 /\
      pipe_data pp = (flv_header :: sent)%list.
Proof.
  intros Hos Hname Hframes name sent.
  set (s0 := mkState new_Handler w).
  set (p := length (pipes w)). set (pid := length (procs w)).
  (* the publish *)
  set (s1 := publish_started s0 cmd (mkPipe 0 1 [flv_header]) 0 true).
  assert (Hpub : OnPublish os ts cmd s0 = Returned None s1).
  { destruct Hos as (Hmk & Hpipe & Hstart & Hwr).
    apply OnPublish_succeeds; [by apply String.eqb_neq|done..]. }
  assert (Hh1 : handler s1 =
            {| ffmpegCmd := Some (started_cmd name pid); ffmpegIn := Some p;
               flvEnc := Some (mkEncoder p) |}) by reflexivity.
  assert (Hd1 : dirs (world s1) = (dirs w ++ [(outputDir name, 493%Z)])%list)
    by reflexivity.
  assert (Hp1 : pipes (world s1) = (pipes w ++ [mkPipe 0 1 [flv_header]])%list)
    by reflexivity.
  assert (Hpr1 : procs (world s1) =
            (procs w ++ [mkProc (started_cmd name pid) 0])%list) by reflexivity.
  clearbody s1.
  (* the frames *)
  destruct Hos as (_ & _ & _ & Hwrite).
  destruct (frames_run_forwarded frames s1 p (mkPipe 0 1 [flv_header]))
    as (rs & s2 & Hrun & _ & Hs2 & Hp2); [by rewrite Hh1| |done|done|done|].
  { rewrite Hp1. apply lookup_new. }
  cbn [pipe_writes pipe_data] in Hp2. fold sent in Hp2.
  destruct Hs2 as (Hh2 & Hd2 & Hpr2 & Hlen2 & _ & _ & Hother2).
  assert (Hpipes2 : pipes (world s2) =
            (pipes w ++ [mkPipe 0 (1 + length sent) (flv_header :: sent)])%list).
  { apply list_eq. intros q. destruct (decide (q = p)) as [->|Hq].
    - rewrite Hp2. symmetry. apply lookup_new.
    - rewrite Hother2, Hp1.
      + destruct (decide (q < p)) as [Hlt|Hge].
        * by rewrite !lookup_app_l.
        * rewrite !lookup_ge_None_2; [done|rewrite length_app; simpl; fold p; lia..].
      + rewrite Hh1. simpl. congruence. }
  (* the close *)
  assert (Hpub2 : published s2 p pid).
  { unfold published. rewrite Hh2, Hh1, Hpr2, Hpr1, Hpipes2. simpl.
    split_and!; try done.
    - by eexists.
    - eexists. apply lookup_new.
    - eexists. apply lookup_new. }
  pose proof (OnClose_published flvtag os s2 p pid Hpub2) as Hclose.
  exists ((None :: rs) ++ [None])%list, (after_close s2 p pid).
  split.
  { change (CallPublish ts cmd :: frames ++ [CallClose])%list
      with ((CallPublish ts cmd :: frames) ++ [CallClose])%list.
    apply (calls_app _ _ _ s2).
    - simpl. unfold bind at 1. fold s0. rewrite Hpub.
      unfold bind at 1. by rewrite Hrun.
    - simpl. unfold bind at 1. unfold bind at 1. by rewrite Hclose. }
  unfold after_close. cbn [world handler dirs pipes procs set_procs set_pipes logged set_logs].
  rewrite Hd2, Hd1, Hpipes2, Hpr2, Hpr1. unfold p, pid.
  split; [done|]. split; [by rewrite alter_new|].
  eexists. split; [by rewrite alter_new|]. done.
Qed.

End Runs.

(** ** What the signal handler removes *)

Section ShutdownFiles.

Lemma list_ascii_of_string_app (a b : string) :
  list_ascii_of_string (a ++ b) =
    (list_ascii_of_string a ++ list_ascii_of_string b)%list.
Proof.
  induction a as [|x a IH]; [done|].
  rewrite string_app_cons. simpl. by rewrite IH.
Qed.

Lemma list_ascii_of_string_inj (a b : string) :
  list_ascii_of_string a = list_ascii_of_string b -> a = b.
Proof.
  intros H. rewrite <- (string_of_list_ascii_of_string a),
    <- (string_of_list_ascii_of_string b). by rewrite H.
Qed.

Lemma string_app_inv_r (a b c : string) :
  (a ++ c)%string = (b ++ c)%string -> a = b.
Proof.
  intros H. apply list_ascii_of_string_inj.
  apply (f_equal list_ascii_of_string) in H.
  rewrite !list_ascii_of_string_app in H. by apply app_inv_tail in H.
Qed.

(** A name ending in ".ts" is not the playlist, and is the pattern only if
    it is spelled with the star. *)
Lemma segment_name (n : string) :
  ("public/ali/" ++ n ++ ".ts")%string <> "public/ali/index.m3u8" /\
  (n <> "*" -> ("public/ali/" ++ n ++ ".ts")%string <> "public/ali/*.ts").
Proof.
  split.
  - intros H. apply (f_equal list_ascii_of_string) in H.
    rewrite !list_ascii_of_string_app in H.
    change (list_ascii_of_string ".ts")
      with ([".";"t"]%char ++ ["s"%char])%list in H.
    change (list_ascii_of_string "public/ali/index.m3u8")
      with (list_ascii_of_string "public/ali/index.m3u" ++ ["8"%char])%list in H.
    rewrite !app_assoc in H. by apply app_inj_tail in H as [_ ?].
  - intros Hn H. apply Hn.
    change "public/ali/*.ts" with ("public/ali/" ++ "*" ++ ".ts")%string in H.
    apply (f_equal list_ascii_of_string) in H.
    rewrite (list_ascii_of_string_app "public/ali/" (n ++ ".ts")) in H.
    rewrite (list_ascii_of_string_app "public/ali/" ("*" ++ ".ts")) in H.
    apply app_inv_head in H. apply list_ascii_of_string_inj in H.
    by apply string_app_inv_r in H.
Qed.

(** Joining is injective on lists of separator-free elements. *)
Lemma join_sep_inj (l1 l2 : list string) :
  l1 <> [] -> l2 <> [] ->
  Forall (fun e => no_separator e = true) l1 ->
  Forall (fun e => no_separator e = true) l2 ->
  Filepath.join_sep l1 = Filepath.join_sep l2 -> l1 = l2.
Proof.
  intros Hn1 Hn2 H1 H2 Heq.
  rewrite <- (elements_join_sep l1), <- (elements_join_sep l2) by done.
  by rewrite Heq.
Qed.

(** X12: the signal handler removes two names and nothing else.  After
    SIGINT or SIGTERM the files are those of before without the playlist of
    the stream "ali" and without the file literally named "*.ts" in its
    directory: the pattern is not expanded, so every segment file stays,
    and so does the playlist of every stream published under another plain
    name.  The process then exits with status 0. *)
Theorem signal_handler_removes_two_names (sig : Signal) (files : gset string) :
  let after := sd_files (on_signal sig files) in
  (forall path,
     path ∈ after <->
     (path ∈ files /\ path <> "public/ali/index.m3u8" /\
      path <> "public/ali/*.ts")) /\
  (forall n, n <> "*" ->
     ("public/ali/" ++ n ++ ".ts")%string ∈ files ->
     ("public/ali/" ++ n ++ ".ts")%string ∈ after) /\
  (forall l, Forall (fun e => plain e = true) l -> l <> [] -> l <> ["ali"] ->
     m3u8Path (Filepath.join_sep l) ∈ files ->
     m3u8Path (Filepath.join_sep l) ∈ after) /\
  (m3u8Path "ali" ∉ after) /\
  sd_status (on_signal sig files) = 0%Z.
Proof.
  intros after.
  assert (Hafter : forall path,
    path ∈ after <->
    (path ∈ files /\ path <> "public/ali/index.m3u8" /\
     path <> "public/ali/*.ts")).
  { intros path. unfold after, on_signal, os_Remove. simpl.
    rewrite !elem_of_difference, !elem_of_singleton. tauto. }
  split; [exact Hafter|]. split; [|split; [|split; [|done]]].
  - intros n Hn Hin. apply Hafter. split; [done|].
    destruct (segment_name n) as [H1 H2]. split; [done|by apply H2].
  - intros l Hall Hne Hali Hin. apply Hafter. split; [done|].
    rewrite (m3u8Path_plain l Hall Hne).
    assert (Hsep : Forall (fun e => no_separator e = true)
                     (output_root :: l ++ ["index.m3u8"])).
    { constructor; [done|]. apply Forall_app. split.
      - by apply plain_no_separator.
      - by repeat constructor. }
    split.
    + intros H.
      assert (Hl : (output_root :: l ++ ["index.m3u8"])%list =
                   ["public"; "ali"; "index.m3u8"]).
      { apply join_sep_inj; [done|done|done|by repeat constructor|done]. }
      apply Hali. injection Hl as Hl.
      destruct l as [|e [|e' l]]; [done| |].
      * by injection Hl as ->.
      * injection Hl as _ Hl. by destruct l.
    + intros H.
      assert (Hl : (output_root :: l ++ ["index.m3u8"])%list =
                   ["public"; "ali"; "*.ts"]).
      { apply join_sep_inj; [done|done|done|by repeat constructor|done]. }
      injection Hl as Hl.
      destruct l as [|e [|e' l]]; [done| |].
      * by injection Hl as _ ?.
      * injection Hl as _ Hl. by destruct l.
  - intros H. apply Hafter in H as (_ & H & _). by apply H.
Qed.

End ShutdownFiles.

(** ** The further properties on the demo machines *)

Lemma os_good_healthy : healthy os_good.
Proof.
  repeat split; intros; try reflexivity.
  by match goal with c : Chunk _ |- _ => destruct c end.
Qed.

(** The name "live/stream1". *)
Lemma plain_name_witness :
  outputDir "live/stream1" = "public/live/stream1" /\
  Filepath.within output_root (outputDir "live/stream1") = true /\
  m3u8Path "live/stream1" = "public/live/stream1/index.m3u8".
Proof.
  apply (plain_name_stays_under_root ["live"; "stream1"]).
  - by repeat constructor.
  - done.
Defined.

(** The names "../../etc" and "..". *)
Lemma dotdot_name_witness :
  (outputDir "../../etc" = "../etc" /\
   (1 <> 0 \/ ["etc"] = [] -> Filepath.within output_root (outputDir "../../etc") = false)) /\
  (outputDir ".." = "." /\
   (0 <> 0 \/ @nil string = [] -> Filepath.within output_root (outputDir "..") = false)).
Proof.
  split.
  - apply (dotdot_name_leaves_root 1 ["etc"]). by repeat constructor.
  - apply (dotdot_name_leaves_root 0 []). constructor.
Defined.


(** A second publish, on the handler that is publishing, on the machine
    whose second pipe refuses the FLV header: the first process and pipe
    stay live and open, and the handler names the second ones. *)
Lemma failed_publish_witness :
  let s := final_state (OnPublish os_second_header_fails 0 publish_stream1 init_state) in
  let s' := final_state (OnPublish os_second_header_fails 1 publish_stream1 s) in
  let e := errors_Wrap broken_pipe "Failed to create FLV encoder" in
  OnPublish os_second_header_fails 1 publish_stream1 s = Returned (Some e) s' /\
  is_Some (error_kind e) /\
  flvEnc (handler s') = Some (mkEncoder 0) /\
  handler s' =
    {| ffmpegCmd := Some (started_cmd "stream1" 1);
       ffmpegIn := Some 1;
       flvEnc := Some (mkEncoder 0) |} /\
  (encoder_failed e = true ->
     closes_of (world s') 1 = 1 /\
     kills_of (world s') 1 = 1) /\
  live_procs (world s') = [mkProc (started_cmd "stream1" 0) 0] /\
  open_pipes (world s') = [mkPipe 0 1 [flv_header]] /\
  (forall q pp, pipes (world s) !! q = Some pp -> pipes (world s') !! q = Some pp) /\
  (forall q pr, procs (world s) !! q = Some pr -> procs (world s') !! q = Some pr).
Proof.
  split; [reflexivity|].
  exact (failed_publish_releases_what_it_made demo_codec os_second_header_fails
           (final_state (OnPublish os_second_header_fails 0 publish_stream1 init_state))
           (final_state
              (OnPublish os_second_header_fails 1 publish_stream1
                 (final_state
                    (OnPublish os_second_header_fails 0 publish_stream1 init_state))))
           1 publish_stream1
           (errors_Wrap broken_pipe "Failed to create FLV encoder") eq_refl).
Defined.

(** The three kinds of error, each on its machine. *)
Lemma publish_error_witness :
  final_state (OnPublish os_good 0 (mkPublish "" "live") init_state) =
    publish_logged init_state (mkPublish "" "live") /\
  (let r :=
     OnPublish (demo_os (Some io_EOF) None None None None) 0 publish_stream1
       init_state in
   returned r = Some (Some (errors_Wrap io_EOF "Failed to create output dir")) /\
   handler (final_state r) = new_Handler /\
   pipes (world (final_state r)) = [] /\
   procs (world (final_state r)) = []) /\
  dirs (world (final_state (OnPublish os_no_ffmpeg 0 publish_stream1 init_state))) =
    [("public/stream1", 493%Z)].
Proof.
  split; [|split].
  - by apply (publish_error_tells_failed_step demo_codec os_good init_state 0
                (mkPublish "" "live")).
  - destruct (publish_error_tells_failed_step demo_codec
                (demo_os (Some io_EOF) None None None None) init_state 0
                publish_stream1) as (_ & _ & _ & H & _).
    destruct (H eq_refl) as ((cause & Hcause & Hret) & Hh & Hp & Hpr & _).
    injection Hcause as <-. done.
  - by apply (publish_error_tells_failed_step demo_codec os_no_ffmpeg init_state 0
                publish_stream1).
Defined.

(** A video frame on the published demo handler. *)
Lemma frame_witness :
  only_wrote published_state
    (final_state (call os_good (CallVideo 40 good_frame) published_state)) /\
  (panicked (call os_good (CallVideo 40 good_frame) published_state) = true <->
     flvEnc (handler published_state) = None /\
     forwarded demo_codec (CallVideo 40 good_frame) <> []).
Proof.
  by apply (frame_leaves_session_alone demo_codec os_good published_state
              (CallVideo 40 good_frame)).
Defined.

(** A video frame, an audio frame that does not decode and a metadata
    frame, on the published demo handler. *)
Lemma forwarded_witness :
  let cs := [CallVideo 40 good_frame; CallAudio 41 bad_frame;
             CallSetDataFrame 42 frame_bytes] in
  exists rs s',
    calls os_good cs published_state = Returned rs s' /\
    length rs = 3 /\
    handler s' = handler published_state /\
    data_of (world s') 0 =
      [flv_header;
       ChunkTag demo_codec
         (video_tag (flvtag:=demo_codec) 40 Init.Byte.x17
            [Init.Byte.x01; Init.Byte.x02]);
       ChunkTag demo_codec (script_tag (flvtag:=demo_codec) 42 frame_bytes)] /\
    writes_of (world s') 0 = 3 /\
    closes_of (world s') 0 = 0.
Proof.
  intros cs.
  destruct os_good_healthy as (_ & _ & _ & Hwrite).
  assert (Hall : Forall (fun c => is_frame c = true) cs)
    by (by repeat constructor).
  exact (frames_forwarded_in_order demo_codec os_good cs published_state 0
           (mkPipe 0 1 [flv_header]) eq_refl eq_refl eq_refl
           (fun w ch => Hwrite w 0 ch) Hall).
Defined.

(** After a publish nothing panics; before it a frame does. *)
Lemma panic_witness :
  panicked
    (calls os_good [CallClose; CallVideo 40 good_frame; CallClose]
       (final_state (calls os_good [CallPublish 0 publish_stream1] init_state))) =
    false /\
  (nil_dereference = nil_dereference /\ flvEnc (handler init_state) = None).
Proof.
  split.
  - destruct (panic_only_before_publish demo_codec os_good empty_World
                [CallPublish 0 publish_stream1]
                [CallClose; CallVideo 40 good_frame; CallClose]) as [H _].
    by apply H.
  - destruct (panic_only_before_publish demo_codec os_good empty_World []
                [CallVideo 40 good_frame]) as [_ H].
    by apply (H nil_dereference init_state).
Defined.

(** A publish of "stream1", one video frame, the close. *)
Lemma whole_session_witness :
  exists rs s',
    calls os_good
      [CallPublish 0 publish_stream1; CallVideo 40 h263_frame; CallClose]
      init_state = Returned rs s' /\
    dirs (world s') = [("public/stream1", 493%Z)] /\
    procs (world s') = [mkProc (started_cmd "stream1" 0) 1] /\
    exists pp,
      pipes (world s') = [pp] /\
      pipe_closes pp = 1 /\
      pipe_data pp =
        [flv_header;
         ChunkTag demo_codec
           (video_tag (flvtag:=demo_codec) 40 Init.Byte.x12
              [Init.Byte.x01; Init.Byte.x02])].
Proof.
  apply (whole_session_effect demo_codec os_good empty_World 0 publish_stream1
           [CallVideo 40 h263_frame] os_good_healthy).
  - discriminate.
  - by repeat constructor.
Defined.

(** A segment of "ali" and the playlist of "bob" stay; the playlist of
    "ali" goes. *)
Lemma signal_handler_witness :
  let files : gset string :=
    {[ "public/ali/index.m3u8"; "public/ali/index0.ts"; "public/bob/index.m3u8" ]} in
  let after := sd_files (on_signal SIGTERM files) in
  "public/ali/index0.ts" ∈ after /\
  "public/bob/index.m3u8" ∈ after /\
  ("public/ali/index.m3u8" ∉ after).
Proof.
  intros files after.
  destruct (signal_handler_removes_two_names SIGTERM files)
    as (_ & Hseg & Hother & Hali & _).
  split; [|split].
  - apply (Hseg "index0"); [discriminate|]. unfold files. set_solver.
  - apply (Hother ["bob"]); [by repeat constructor|done|discriminate|].
    unfold files. set_solver.
  - exact Hali.
Defined.

(** ** Frames after the close *)

Section AfterClose.

Context (flvtag : FlvCodec) (os : OS flvtag).

Abbreviation Sc := (State flvtag).

Lemma published_after_frame (s : Sc) (p : PipeId) (pid : Pid) (c : Call) :
  published s p pid ->
  is_frame c = true ->
  exists r s',
    call os c s = Returned r s' /\
    published s' p pid /\
    handler s' = handler s /\
    closes_of (world s') p = closes_of (world s) p.
Proof.
  intros Hpub Hc. pose proof (frame_call_outcome flvtag os s c Hc) as Hout.
  destruct Hpub as (Henc & Hin & Hcmd & Hpp & Hpr).
  destruct (call os c s) as [r s'|msg s'].
  - destruct Hout as (Hh & _ & Hprocs & Hlen & Hcl & _).
    exists r, s'. split; [done|]. split; [|done].
    unfold published. rewrite Hh, Hprocs. split_and!; try done.
    apply lookup_lt_is_Some. rewrite Hlen. by apply lookup_lt_is_Some.
  - destruct Hout as (Hnil & _). by rewrite Henc in Hnil.
Qed.

Lemma published_after_close (s : Sc) (p : PipeId) (pid : Pid) :
  published s p pid ->
  exists s',
    call os CallClose s = Returned None s' /\
    published s' p pid /\
    handler s' = handler s /\
    closes_of (world s') p = S (closes_of (world s) p).
Proof.
  intros Hpub. exists (after_close s p pid).
  split.
  { simpl. unfold bind. by rewrite (OnClose_published flvtag os s p pid Hpub). }
  split; [by apply after_close_published|]. split; [done|].
  by destruct (after_close_counts flvtag s p pid Hpub) as (? & _).
Qed.

(** After a publish that returned nil, a run of frames and closes returns
    from every call and leaves the handler as the publish left it; the
    pipe is closed from the first [OnClose] on. *)
Lemma run_after_publish (cs : list Call) (s : Sc) (p : PipeId) (pid : Pid) :
  published s p pid ->
  Forall (fun c => is_publish c = false) cs ->
  exists rs s',
    calls os cs s = Returned rs s' /\
    published s' p pid /\
    handler s' = handler s /\
    closes_of (world s) p <= closes_of (world s') p /\
    (CallClose ∈ cs -> closes_of (world s') p <> 0).
Proof.
  intros Hpub Hall. revert s Hpub.
  induction Hall as [|c cs Hc _ IH]; intros s Hpub.
  - exists [], s. split_and!; try done. by intros ?%elem_of_nil.
  - assert (Hstep : exists r s1,
      call os c s = Returned r s1 /\ published s1 p pid /\
      handler s1 = handler s /\
      closes_of (world s) p <= closes_of (world s1) p /\
      (c = CallClose -> closes_of (world s1) p <> 0)).
    { destruct c as [ts cmd|ts payload|ts payload|ts payload|]; [done| | | |].
      1-3: (match goal with |- context [call os ?c _] =>
              destruct (published_after_frame s p pid c Hpub eq_refl)
                as (r & s1 & H1 & H2 & H3 & H4)
            end;
            exists r, s1; rewrite H4; split_and!; try done).
      destruct (published_after_close s p pid Hpub) as (s1 & H1 & H2 & H3 & H4).
      exists None, s1. rewrite H4. split_and!; try done; lia. }
    destruct Hstep as (r & s1 & Hcall & Hpub1 & Hh1 & Hle1 & Hcl1).
    destruct (IH s1 Hpub1) as (rs & s2 & Hrun & Hpub2 & Hh2 & Hle2 & Hcl2).
    exists (r :: rs), s2. simpl. unfold bind at 1. rewrite Hcall.
    unfold bind at 1. rewrite Hrun. split; [done|]. split; [done|].
    split; [congruence|]. split; [lia|].
    intros [Heq|Hin]%elem_of_cons.
    + symmetry in Heq. specialize (Hcl1 Heq). lia.
    + by apply Hcl2.
Qed.

(** C4 (as the code has it): take a handler whose most recent [OnPublish]
    returned nil, with only frame callbacks and [OnClose] called since, one
    [OnClose] at least.  Every one of these calls returned, and the handler
    still holds the encoder, pipe and command of that publish; the pipe is
    closed.  A frame callback whose payload decodes still calls [Encode]:
    a write on the closed pipe is attempted and refused, the refusal is
    logged and the callback returns nil without a panic.  Nothing is
    delivered to the pipe, the handler's fields are not assigned, and no
    directory, process or pipe is made. *)
Theorem C4_frames_after_close_attempt_write
    (s_before s0 : Sc) (ts0 : Z) (cmd : NetStreamPublish) (run : list Call) :
  OnPublish os ts0 cmd s_before = Returned None s0 ->
  Forall (fun c => is_publish c = false) run ->
  CallClose ∈ run ->
  let p := length (pipes (world s_before)) in
  exists rs s,
    calls os run s0 = Returned rs s /\
    handler s = handler s0 /\
    flvEnc (handler s) = Some (mkEncoder p) /\
    ffmpegIn (handler s) = Some p /\
    closes_of (world s) p <> 0 /\
    (forall ts payload script,
       DecodeScriptData flvtag (bytes_NewReader payload) = inr script ->
       OnSetDataFrame os ts payload s =
         Returned None (after_refused_write s p "Failed to write script data: %+v")) /\
    (forall ts payload hd body buf,
       DecodeAudioData flvtag payload = inr (hd, body) ->
       io_Copy body = inr buf ->
       OnAudio os ts payload s =
         Returned None (after_refused_write s p "Failed to write audio: %+v")) /\
    (forall ts payload hd body buf,
       DecodeVideoData flvtag payload = inr (hd, body) ->
       io_Copy body = inr buf ->
       OnVideo os ts payload s =
         Returned None (after_refused_write s p "Failed to write video: %+v")) /\
    (forall format,
       let s' := after_refused_write s p format in
       handler s' = handler s /\
       dirs (world s') = dirs (world s) /\
       procs (world s') = procs (world s) /\
       length (pipes (world s')) = length (pipes (world s)) /\
       data_of (world s') p = data_of (world s) p /\
       closes_of (world s') p = closes_of (world s) p /\
       writes_of (world s') p = S (writes_of (world s) p)).
Proof.
  intros Hpublish Hrun Hclose p.
  pose proof (OnPublish_publishes flvtag os s_before s0 ts0 cmd Hpublish) as Hpub.
  fold p in Hpub.
  destruct (run_after_publish run s0 p _ Hpub Hrun)
    as (rs & s & Hcalls & Hpub' & Hh & _ & Hclosed).
  specialize (Hclosed Hclose).
  exists rs, s. split; [done|]. split; [done|].
  destruct Hpub' as (Henc & Hin & Hrest).
  split; [done|]. split; [done|]. split; [done|].
  exact (frames_on_closed_pipe flvtag os s p _ (conj Henc (conj Hin Hrest)) Hclosed).
Qed.

End AfterClose.

(** C4, counterexample.  A video frame that decodes, after the close.  On
    the handler that had published, the callback returns nil and one more
    write has been attempted on the closed pipe, and the refusal is logged.
    On a handler that never published, the callback after the close
    panics.  On a handler whose second publish failed in the encoder, the
    close releases the second pipe and process, and the frame after it is
    delivered to the first pipe, which is still open. *)
Lemma C4_write_after_close_counterexample :
  (let r := OnVideo os_good 40 h263_frame closed_state in
   closes_of (world closed_state) 0 = 1 /\
   returned r = Some None /\
   writes_of (world (final_state r)) 0 = S (writes_of (world closed_state) 0) /\
   logs (world (final_state r)) =
     (logs (world closed_state) ++
        [mkLog "Failed to write video: %+v" [ArgError ErrClosed]])%list) /\
  panicked (calls os_good [CallClose; CallVideo 40 h263_frame] init_state) = true /\
  (let closed :=
     final_state
       (calls os_second_header_fails
          [CallPublish 0 publish_stream1; CallPublish 1 publish_stream1; CallClose]
          init_state) in
   let r := OnVideo os_second_header_fails 40 h263_frame closed in
   closes_of (world closed) 0 = 0 /\
   closes_of (world closed) 1 = 2 /\
   returned r = Some None /\
   data_of (world (final_state r)) 0 =
     (data_of (world closed) 0 ++
        [ChunkTag demo_codec
           (video_tag (flvtag:=demo_codec) 40 Init.Byte.x12
              [Init.Byte.x01; Init.Byte.x02])])%list).
Proof. vm_compute. repeat split. Qed.

(** A publish of "stream1", a video frame, the close; then one frame of
    each kind. *)
Lemma C4_witness :
  exists rs s,
    calls os_good [CallVideo 40 h263_frame; CallClose] published_state =
      Returned rs s /\
    handler s = handler published_state /\
    closes_of (world s) 0 <> 0 /\
    OnSetDataFrame os_good 80 metadata_bytes s =
      Returned None (after_refused_write s 0 "Failed to write script data: %+v") /\
    OnAudio os_good 80 mp3_frame s =
      Returned None (after_refused_write s 0 "Failed to write audio: %+v") /\
    OnVideo os_good 80 h263_frame s =
      Returned None (after_refused_write s 0 "Failed to write video: %+v") /\
    data_of (world (after_refused_write s 0 "Failed to write video: %+v")) 0 =
      data_of (world s) 0.
Proof.
  destruct (C4_frames_after_close_attempt_write demo_codec os_good
              init_state published_state 0 publish_stream1
              [CallVideo 40 h263_frame; CallClose])
    as (rs & s & Hrun & Hh & _ & _ & Hclosed & Hscript & Haudio & Hvideo & Hfacts).
  - reflexivity.
  - by repeat constructor.
  - apply elem_of_cons. right. apply elem_of_cons. by left.
  - exists rs, s.
    split; [exact Hrun|]. split; [exact Hh|]. split; [exact Hclosed|].
    split; [exact (Hscript 80%Z metadata_bytes metadata_bytes eq_refl)|].
    split; [exact (Haudio 80%Z mp3_frame _ _ _ eq_refl eq_refl)|].
    split; [exact (Hvideo 80%Z h263_frame _ _ _ eq_refl eq_refl)|].
    by destruct (Hfacts "Failed to write video: %+v") as (_ & _ & _ & _ & Hdata & _).
Defined.
